(** * click_project.docker: docker-compose sub-commands and service discovery

    A shallow embedding of [src/click_project/docker.py].

    - Python text is a [string]: one [ascii] per code point, so the model
      covers text whose code points lie below 256.
    - The side effects of the module (external processes, the disk cache,
      the wall clock) are threaded through an explicit [World]; Python
      exceptions are the left injection of a sum.
    - The helpers the module imports from the rest of the package
      ([check_output], [call], [cd], [cache_disk], [startswith]) are not
      part of [docker.py]; they are modelled after the specification and
      marked as such. *)

From Stdlib Require Import ZArith List Ascii String Bool Lia.
From stdpp Require Import base option list strings gmap.

Local Open Scope string_scope.
Local Open Scope Z_scope.
Local Open Scope list_scope.

(** ** Python built-ins used by the module *)

Module Py.

(** [str.isspace] on one code point below 256: TAB, LF, VT, FF, CR,
    FS, GS, RS, US, SPACE, NEL and NBSP. *)
Definition isspace (c : ascii) : bool :=
  let n := nat_of_ascii c in
  ((9 <=? n) && (n <=? 13))%nat || ((28 <=? n) && (n <=? 32))%nat
  || (n =? 133)%nat || (n =? 160)%nat.

(** Line boundaries of [str.splitlines] below 256: LF, VT, FF, CR, FS,
    GS, RS and NEL. *)
Definition is_linebreak (c : ascii) : bool :=
  let n := nat_of_ascii c in
  ((10 <=? n) && (n <=? 13))%nat || ((28 <=? n) && (n <=? 30))%nat
  || (n =? 133)%nat.

Definition is_empty (s : string) : bool :=
  match s with EmptyString => true | String _ _ => false end.

(** [str.lstrip()] *)
Fixpoint lstrip (s : string) : string :=
  match s with
  | EmptyString => EmptyString
  | String c r => if isspace c then lstrip r else s
  end.

(** [str.rstrip()] *)
Fixpoint rstrip (s : string) : string :=
  match s with
  | EmptyString => EmptyString
  | String c r =>
      let r' := rstrip r in
      if isspace c && is_empty r' then EmptyString else String c r'
  end.

(** [str.strip()] *)
Definition strip (s : string) : string := rstrip (lstrip s).

(** [str.splitlines()]: [cur] is the line being scanned.  A carriage
    return followed by a line feed is one boundary, and a boundary at
    the very end of the text opens no further line. *)
Fixpoint splitlines_from (cur : string) (s : string) : list string :=
  match s with
  | EmptyString => if is_empty cur then [] else [cur]
  | String c r =>
      if is_linebreak c then
        cur :: match r with
               | String c' r' =>
                   if (nat_of_ascii c =? 13)%nat && (nat_of_ascii c' =? 10)%nat
                   then splitlines_from EmptyString r'
                   else splitlines_from EmptyString r
               | EmptyString => []
               end
      else splitlines_from (cur +:+ String c EmptyString) r
  end.

Definition splitlines (s : string) : list string :=
  splitlines_from EmptyString s.

(** [str.startswith(prefix)] *)
Fixpoint str_startswith (s prefix : string) {struct prefix} : bool :=
  match prefix, s with
  | EmptyString, _ => true
  | String p prefix', String c s' =>
      if Ascii.eqb c p then str_startswith s' prefix' else false
  | String _ _, EmptyString => false
  end.

(** [x or y] on sequences: the left operand unless it is empty. *)
Definition or_ {A} (x y : list A) : list A :=
  match x with [] => y | _ :: _ => x end.

End Py.

(** ** Exceptions *)

(** The exception classes that can reach this module, with Python's
    single-inheritance chain. *)
Inductive exn_class : Set :=
  | BaseException | KeyboardInterrupt | Exception
  | ImportError | ModuleNotFoundError
  | OSError | PermissionError
  | LookupError | KeyError
  | ClickException
  | SubprocessError | CalledProcessError.

Definition exn_class_eqb (c d : exn_class) : bool :=
  match c, d with
  | BaseException, BaseException | KeyboardInterrupt, KeyboardInterrupt
  | Exception, Exception | ImportError, ImportError
  | ModuleNotFoundError, ModuleNotFoundError | OSError, OSError
  | PermissionError, PermissionError | LookupError, LookupError
  | KeyError, KeyError | ClickException, ClickException
  | SubprocessError, SubprocessError
  | CalledProcessError, CalledProcessError => true
  | _, _ => false
  end.

Definition base_of (c : exn_class) : option exn_class :=
  match c with
  | BaseException => None
  | KeyboardInterrupt | Exception => Some BaseException
  | ImportError | OSError | LookupError | ClickException
  | SubprocessError => Some Exception
  | ModuleNotFoundError => Some ImportError
  | PermissionError => Some OSError
  | KeyError => Some LookupError
  | CalledProcessError => Some SubprocessError
  end.

Fixpoint issubclass_upto (fuel : nat) (c d : exn_class) : bool :=
  exn_class_eqb c d ||
  match fuel, base_of c with
  | S fuel', Some b => issubclass_upto fuel' b d
  | _, _ => false
  end.

(** No chain above is longer than three steps. *)
Definition issubclass : exn_class -> exn_class -> bool := issubclass_upto 3.

Record exn : Set := Exn { exn_type : exn_class; exn_message : string }.

(** [except d:] catches [e] *)
Definition caught_by (d : exn_class) (e : exn) : bool :=
  issubclass (exn_type e) d.

(** ** The world the module acts on *)

(** A cache key: (absolute directory, ordered extra flags). *)
Abbreviation Key := (string * list string)%type (only parsing).

Record CacheEntry : Type := mkEntry {
  entry_key : Key;
  services  : list string;
  createdAt : Z
}.

Inductive Mode : Set := Captured | Streamed.

(** One external process started by the module. *)
Record Invocation : Type := mkInvocation {
  inv_mode : Mode;
  inv_cwd  : string;
  inv_argv : list string
}.

Record World : Type := mkWorld {
  clock   : Z;                      (* seconds *)
  cwd     : string;                 (* working directory of the process *)
  disk    : gmap Key CacheEntry;    (* the cache *)
  journal : list Invocation         (* processes started so far, oldest first *)
}.

Definition set_clock (t : Z) (w : World) : World :=
  mkWorld t (cwd w) (disk w) (journal w).
Definition set_cwd (d : string) (w : World) : World :=
  mkWorld (clock w) d (disk w) (journal w).
Definition set_disk (m : gmap Key CacheEntry) (w : World) : World :=
  mkWorld (clock w) (cwd w) m (journal w).
Definition record_invocation (i : Invocation) (w : World) : World :=
  mkWorld (clock w) (cwd w) (disk w) (journal w ++ [i]).

Record group : Type := mkGroup { gr_name : string; gr_mem : list string }.

(** What lies outside the program: the orchestrator binary, the group
    database and the standard library's path resolution. *)
Record Env : Type := mkEnv {
  (* captured standard output of [argv] started in [cwd] at time [t] *)
  env_capture : Z -> string -> list string -> exn + string;
  (* outcome of [argv] run to completion in [cwd] at time [t] *)
  env_stream  : Z -> string -> list string -> exn + unit;
  (* [os.path.abspath p] when the process is in [cwd] *)
  env_abspath : string -> string -> string;
  (* [import grp] *)
  env_import_grp : exn + unit;
  (* [grp.getgrall()] *)
  env_getgrall : exn + list group;
  (* [getpass.getuser()] *)
  env_getuser : exn + string
}.

(** ** State and exception monad *)

Definition M (A : Type) : Type := World -> (exn + A) * World.

Definition ret {A} (a : A) : M A := fun w => (inr a, w).
Definition bind {A B} (c : M A) (k : A -> M B) : M B :=
  fun w => match c w with
           | (inl e, w') => (inl e, w')
           | (inr a, w') => k a w'
           end.
Definition lift {A} (r : exn + A) : M A := fun w => (r, w).

Notation "'do' x <- c ;; k" := (bind c (fun x => k))
  (at level 10, x name, c at level 99, k at level 200).

(** A value that is either given or computed at each use
    ([v() if callable(v) else v]). *)
Inductive Setting (A : Type) : Type :=
  | Static (a : A)
  | Callable (f : unit -> A).
Arguments Static {A} a.
Arguments Callable {A} f.

Definition resolve {A} (s : Setting A) : A :=
  match s with Static a => a | Callable f => f tt end.

(** ** Collaborators from the rest of the package *)

Section Collaborators.
Variable env : Env.

(** Modelled from the spec: [click_project.lib.check_output] is not in
    [docker.py].  The spec's process runner in capture mode: it starts
    [argv] in the current working directory and hands back the captured
    standard output; a non-zero exit or a spawn failure is raised. *)
Definition check_output (argv : list string) : M string :=
  fun w =>
    (env_capture env (clock w) (cwd w) argv,
     record_invocation (mkInvocation Captured (cwd w) argv) w).

(** Modelled from the spec: [click_project.lib.call] is not in
    [docker.py].  The spec's process runner in pass-through mode,
    [call(argv, cwd)]; without [cwd] the process starts in the current
    working directory. *)
Definition call (argv : list string) (dir : option string) : M unit :=
  fun w =>
    let dir := match dir with Some d => d | None => cwd w end in
    (env_stream env (clock w) dir argv,
     record_invocation (mkInvocation Streamed dir argv) w).

(** Modelled from the spec: [click_project.lib.cd] is not in
    [docker.py].  The spec's working-directory-change helper: the body
    runs in [dir] and the previous directory is restored afterwards,
    whether the body returned or raised. *)
Definition cd {A} (dir : string) (body : M A) : M A :=
  fun w =>
    let previous := cwd w in
    let (r, w') := body (set_cwd dir w) in
    (r, set_cwd previous w').

(** An entry is served while [now - createdAt < expire]. *)
Definition fresh (expire now : Z) (e : CacheEntry) : bool :=
  (now - createdAt e <? expire)%Z.

(** Modelled from the spec: [click_project.core.cache_disk] is not in
    [docker.py].  Spec 4.1: the key is computed from the arguments; an
    entry for the key younger than [expire] seconds is returned verbatim
    with no I/O; otherwise the function runs, and its result is stored as
    a new entry with [createdAt = now], replacing any prior entry for the
    key.  A failure is propagated and nothing is stored. *)
Definition cache_disk (expire : Z)
    (f : string -> list string -> M (list string))
    (directory : string) (args : list string) : M (list string) :=
  fun w =>
    let key : Key := (directory, args) in
    let now := clock w in
    let refresh :=
      match f directory args w with
      | (inr result, w') =>
          (inr result, set_disk (<[key := mkEntry key result now]> (disk w')) w')
      | (inl e, w') => (inl e, w')
      end in
    match disk w !! key with
    | Some entry =>
        if fresh expire now entry then (inr (services entry), w) else refresh
    | None => refresh
    end.

(** Modelled from the spec: [click_project.completion.startswith] is not
    in [docker.py].  Spec 4.1: a case-sensitive byte-prefix match. *)
Definition startswith (s incomplete : string) : bool :=
  Py.str_startswith s incomplete.

End Collaborators.

(** ** [docker_generic_commands] *)

Section DockerGenericCommands.
Variable env : Env.
Variable directory : Setting string.
Variable extra_options : Setting (list string).

Definition abs_directory : M string :=
  fun w => (inr (env_abspath env (cwd w) (resolve directory)), w).

Definition docker_compose (args : list string) : M unit :=
  do dir <- abs_directory ;;
  call env ("docker-compose" :: resolve extra_options ++ args) (Some dir).

(** *** [DockerServices] *)

(** The body of the cached function [compute]. *)
Definition compute_body (directory : string) (args : list string)
  : M (list string) :=
  cd directory
    (do out <- check_output env
                 ("docker-compose" :: args ++ ["config"; "--services"]) ;;
     ret (map Py.strip (Py.splitlines out))).

Definition compute : string -> list string -> M (list string) :=
  cache_disk 60 compute_body.

Definition choices : M (list string) :=
  do dir <- abs_directory ;;
  compute dir (resolve extra_options).

Definition complete (incomplete : string) : M (list string) :=
  do cs <- choices ;;
  ret (List.filter (fun choice => startswith choice incomplete) cs).

(** *** The docker-group check *)

(** [[g.gr_name for g in all_groups if getpass.getuser() in g.gr_mem]]:
    the user name is asked for once per group. *)
Fixpoint groups_of_user (all_groups : list group) : exn + list string :=
  match all_groups with
  | [] => inr []
  | g :: rest =>
      match env_getuser env with
      | inl e => inl e
      | inr user =>
          match groups_of_user rest with
          | inl e => inl e
          | inr names =>
              inr (if existsb (String.eqb user) (gr_mem g)
                   then gr_name g :: names else names)
          end
      end
  end.

Definition not_in_docker_group : exn :=
  Exn ClickException
    ("The current user is not in the docker group." +:+
     " Please add it to '/etc/group' or use 'fix-up'").

(** The body of the [try]. *)
Definition user_in_docker_group_try : exn + unit :=
  match env_import_grp env with
  | inl e => inl e
  | inr _ =>
      match env_getgrall env with
      | inl e => inl e
      | inr all_groups =>
          match groups_of_user all_groups with
          | inl e => inl e
          | inr groups =>
              if negb (existsb (String.eqb "docker") groups)
              then inl not_in_docker_group
              else inr tt
          end
      end
  end.

(** [try: ... except ImportError: pass] *)
Definition user_in_docker_group : exn + unit :=
  match user_in_docker_group_try with
  | inl e => if caught_by ImportError e then inr tt else inl e
  | inr _ => inr tt
  end.

(** *** Sub-commands *)

(** [for scale in scales: up_args += ['--scale', scale]] *)
Definition scale_args (scales : list string) : list string :=
  fold_left (fun up_args scale => up_args ++ ["--scale"; scale]) scales [].

Definition up_argv (service : list string) (force_recreate : bool)
    (scales : list string) : list string :=
  ["up"; "-d"; "--build"] ++ scale_args scales
    ++ (if force_recreate then ["--force-recreate"] else []) ++ service.

Definition up (service : list string) (force_recreate : bool)
    (scales : list string) : M unit :=
  do _ <- lift user_in_docker_group ;;
  docker_compose (up_argv service force_recreate scales).

(** [--remove-orphans/--no-remove-orphans], [default=True]: the value
    the command receives when the option is absent ([None]) or given. *)
Definition remove_orphans_option (given : option bool) : bool :=
  match given with Some b => b | None => true end.

Definition down_argv (remove_orphans : bool) : list string :=
  let args := [] in
  let args := if remove_orphans then args ++ ["--remove-orphans"] else args in
  ["down"] ++ args.

Definition down (remove_orphans : bool) : M unit :=
  docker_compose (down_argv remove_orphans).

Definition start (service : list string) : M unit :=
  do dir <- abs_directory ;;
  cd dir (docker_compose (["start"] ++ service)).

Definition stop (service : list string) : M unit :=
  docker_compose (["stop"] ++ service).

Definition restart (service : list string) : M unit :=
  docker_compose (["restart"] ++ service).

Definition ps (service : list string) : M unit :=
  let service := Py.or_ service [] in
  docker_compose (["ps"] ++ service).

Definition status (service : list string) : M unit :=
  let service := Py.or_ service [] in
  docker_compose (["ps"] ++ service).

Definition logs (service : list string) : M unit :=
  docker_compose (["logs"; "-f"] ++ service).

Definition _config (services : bool) : M unit :=
  docker_compose (["config"] ++ (if services then ["--services"] else [])).

Definition _exec (service : string) (command : list string) : M unit :=
  docker_compose (["exec"; service] ++ command).

Definition run (service : string) (command : list string) : M unit :=
  docker_compose (["run"; service] ++ command).

(** [service] is optional; [[service] if service else []] also drops an
    empty name. *)
Definition build (service : option string) (args : list string) : M unit :=
  let command :=
    ["build"]
    ++ match service with
       | Some s => if Py.is_empty s then [] else [s]
       | None => []
       end
    ++ args in
  docker_compose command.

Definition images (args : list string) : M unit :=
  let command := ["images"] ++ args in
  docker_compose command.

Definition fix_up : M unit :=
  do user <- lift (env_getuser env) ;;
  do _ <- call env ["sudo"; "adduser"; user; "docker"] None ;;
  call env ["sudo"; "login"] None.

End DockerGenericCommands.

(** ** Vocabulary of the statements *)

(** A world before anything ran. *)
Definition initial_world (start_dir : string) : World :=
  mkWorld 0 start_dir ∅ [].

Module PySpec.
Import Py.

Fixpoint all_space (s : string) : bool :=
  match s with
  | EmptyString => true
  | String c r => isspace c && all_space r
  end.

Definition starts_with_space (s : string) : bool :=
  match s with
  | EmptyString => false
  | String c _ => isspace c
  end.

Fixpoint ends_with_space (s : string) : bool :=
  match s with
  | EmptyString => false
  | String c EmptyString => isspace c
  | String _ r => ends_with_space r
  end.

Fixpoint has_linebreak (s : string) : bool :=
  match s with
  | EmptyString => false
  | String c r => is_linebreak c || has_linebreak r
  end.

End PySpec.

(** The command line of a discovery. *)
Definition discovery_argv (args : list string) : list string :=
  "docker-compose" :: args ++ ["config"; "--services"].

Definition discovery (directory : string) (args : list string) : Invocation :=
  mkInvocation Captured directory (discovery_argv args).

(** The key holds an entry that the cache would serve now. *)
Definition live (w : World) (k : Key) : bool :=
  match disk w !! k with
  | Some e => fresh 60 (clock w) e
  | None => false
  end.

(** The key [choices] looks up when the process is in [cwd w]. *)
Definition key_of (env : Env) (directory : Setting string)
    (extra_options : Setting (list string)) (w : World) : Key :=
  (env_abspath env (cwd w) (resolve directory), resolve extra_options).

(** The process [docker_compose args] starts in world [w]. *)
Definition forwarded (env : Env) (directory : Setting string)
    (extra_options : Setting (list string)) (w : World)
    (args : list string) : Invocation :=
  mkInvocation Streamed (env_abspath env (cwd w) (resolve directory))
    ("docker-compose" :: resolve extra_options ++ args).

(** [user] belongs to the group called [name]. *)
Definition member_of (all_groups : list group) (user name : string) : bool :=
  existsb (fun g => String.eqb (gr_name g) name
                    && existsb (String.eqb user) (gr_mem g)) all_groups.

(** Every entry sits under its own key and holds what a discovery for that
    key gave at the time the entry was made. *)
Definition cache_sound (env : Env) (w : World) : Prop :=
  forall (k : Key) (e : CacheEntry),
    disk w !! k = Some e ->
    entry_key e = k
    /\ exists out,
         env_capture env (createdAt e) (fst k) (discovery_argv (snd k)) = inr out
         /\ services e = map Py.strip (Py.splitlines out).

(** The worlds the module can be in: it starts with an empty cache; time
    passes, the process changes directory, services are listed and
    commands are forwarded. *)
Inductive reachable (env : Env) : World -> Prop :=
  | reach_initial start_dir : reachable env (initial_world start_dir)
  | reach_tick t w : reachable env w -> reachable env (set_clock t w)
  | reach_chdir d w : reachable env w -> reachable env (set_cwd d w)
  | reach_compute d args w :
      reachable env w -> reachable env (snd (compute env d args w))
  | reach_call argv d w :
      reachable env w -> reachable env (snd (call env argv d w)).

(** ** Sample hosts *)

Definition LF : string := String (ascii_of_nat 10) EmptyString.
Definition CR : string := String (ascii_of_nat 13) EmptyString.

(** The orchestrator output of the specification's discovery example. *)
Definition sample_output : string :=
  "web" +:+ LF +:+ "worker" +:+ LF +:+ LF +:+ "  db  " +:+ LF.

Definition unix_groups : list group :=
  [mkGroup "adm" ["alice"]; mkGroup "docker" ["alice"; "carol"];
   mkGroup "users" ["alice"; "bob"]].

(** A host where every process succeeds, paths are already absolute and
    [user] is the current user. *)
Definition host (stdout : Z -> string) (user : string) : Env :=
  mkEnv (fun t _ _ => inr (stdout t)) (fun _ _ _ => inr tt) (fun _ p => p)
        (inr tt) (inr unix_groups) (inr user).

Definition compose_failed : exn :=
  Exn CalledProcessError "docker-compose exited with status 1".

(** The same host with a broken compose file: discovery fails. *)
Definition broken_host : Env :=
  mkEnv (fun _ _ _ => inl compose_failed) (fun _ _ _ => inr tt) (fun _ p => p)
        (inr tt) (inr unix_groups) (inr "alice").

(** A host without the [grp] module. *)
Definition no_grp_host : Env :=
  mkEnv (fun _ _ _ => inr sample_output) (fun _ _ _ => inr tt) (fun _ p => p)
        (inl (Exn ModuleNotFoundError "No module named 'grp'"))
        (inr []) (inr "alice").

Definition app_dir : Setting string := Static "/srv/app".
Definition app_flags : Setting (list string) := Callable (fun _ => ["-p"; "sim"]).

(** A host whose compose file declares web, worker and webhook. *)
Definition web_host : Env :=
  host (fun _ => "web" +:+ LF +:+ "worker" +:+ LF +:+ "webhook" +:+ LF) "alice".

(** A host whose compose file changes after one minute. *)
Definition changing_host : Env :=
  host (fun t => if t <? 60 then sample_output else "api" +:+ LF) "alice".

(** A host where reading the group database is denied. *)
Definition denied_host : Env :=
  mkEnv (fun _ _ _ => inr sample_output) (fun _ _ _ => inr tt) (fun _ p => p)
        (inr tt) (inl (Exn PermissionError "Permission denied: '/etc/group'"))
        (inr "alice").

(** ** The rest of the module *)

(** *** [docker_command] *)

(** The keywords [docker_command] keeps for [docker_generic_commands]. *)
Definition generic_option_names : list string :=
  ["directory"; "extra_options"].

(** [opts = dict((k, v) for k, v in kwargs.items()
                if k in ['directory', 'extra_options'])] *)
Definition docker_command_opts {V} (kwargs : gmap string V) : gmap string V :=
  filter (fun kv => kv.1 ∈ generic_option_names) kwargs.

(** [for k in opts.keys(): del kwargs[k]]: the keywords left for the
    group. *)
Definition docker_command_kwargs {V} (kwargs : gmap string V)
  : gmap string V :=
  map_fold (fun k _ remaining => delete k remaining) kwargs
    (docker_command_opts kwargs).

(** The parameters of [docker_generic_commands] after [group]:
    [directory] has no default, [extra_options] has one. *)
Record GenericArgs (V : Type) : Type := mkGenericArgs {
  ga_directory : V;
  ga_extra_options : option V     (* [None]: the default applies *)
}.
Arguments mkGenericArgs {V} _ _.
Arguments ga_directory {V} _.
Arguments ga_extra_options {V} _.

(** [docker_generic_commands] called with [g] and the keywords [opts]:
    Python binds the keywords to the parameters and raises a TypeError,
    here [None], when [directory] is not among them. *)
Definition docker_generic_commands_args {V} (opts : gmap string V)
  : option (GenericArgs V) :=
  match opts !! "directory" with
  | Some d => Some (mkGenericArgs d (opts !! "extra_options"))
  | None => None
  end.

(** What [docker_command], called with the keywords [kwargs], hands on:
    the keywords for the group and the arguments of
    [docker_generic_commands]. *)
Definition docker_command {V} (kwargs : gmap string V)
  : gmap string V * option (GenericArgs V) :=
  let opts := docker_command_opts kwargs in
  (docker_command_kwargs kwargs, docker_generic_commands_args opts).

(** *** The default of [extra_options] *)

Module PyCase.





End PyCase.


(** *** Vocabulary *)

(** The text with one name per line, each line ended by [eol]. *)
Definition unlines (eol : string) (names : list string) : string :=
  fold_right (fun name rest => name +:+ eol +:+ rest) "" names.

(** A name as the orchestrator prints it: no line boundary inside, no
    white space around it. *)
Definition plain_name (name : string) : bool :=
  negb (PySpec.has_linebreak name)
  && negb (PySpec.starts_with_space name)
  && negb (PySpec.ends_with_space name).

(** The processes started between two worlds. *)
Definition started (w w' : World) : list Invocation :=
  drop (length (journal w)) (journal w').

(** A host whose [abspath] joins a relative path to the working
    directory. *)
Definition joining_host : Env :=
  mkEnv (fun _ _ _ => inr sample_output) (fun _ _ _ => inr tt)
        (fun cwd p => if Py.str_startswith p "/" then p else cwd +:+ "/" +:+ p)
        (inr tt) (inr unix_groups) (inr "alice").

(** A host with an empty group database and no user name to be found. *)
Definition bare_host : Env :=
  mkEnv (fun _ _ _ => inr sample_output) (fun _ _ _ => inr tt) (fun _ p => p)
        (inr tt) (inr []) (inl (Exn KeyError "getpwuid(): uid not found")).

(** ** Facts about the string built-ins *)

Module PyFacts.
Import Py PySpec.

Lemma is_empty_true s : is_empty s = true -> s = "".
Proof. destruct s; [reflexivity | discriminate]. Qed.

Lemma append_nil (s : string) : "" +:+ s = s.
Proof. reflexivity. Qed.

Lemma append_cons c (s t : string) : String c s +:+ t = String c (s +:+ t).
Proof. reflexivity. Qed.

Ltac push_append := rewrite ?append_cons, ?append_nil in *.

Lemma lstrip_decompose s :
  exists l, s = l +:+ lstrip s /\ all_space l = true.
Proof.
  induction s as [|c r [l [Hl Hsp]]]; simpl.
  - exists ""; auto.
  - destruct (isspace c) eqn:Hc.
    + exists (String c l); push_append; simpl.
      rewrite Hc, Hsp, <- Hl. auto.
    + exists ""; auto.
Qed.

Lemma lstrip_head s : starts_with_space (lstrip s) = false.
Proof.
  induction s as [|c r IH]; simpl; [reflexivity|].
  destruct (isspace c) eqn:Hc; [exact IH | simpl; exact Hc].
Qed.

Lemma rstrip_decompose s :
  exists r, s = rstrip s +:+ r /\ all_space r = true.
Proof.
  induction s as [|c s' [r [Hr Hsp]]]; simpl.
  - exists ""; auto.
  - destruct (isspace c && is_empty (rstrip s')) eqn:Hc.
    + apply andb_true_iff in Hc as [Hc He].
      apply is_empty_true in He. rewrite He in Hr. push_append.
      exists (String c s'); simpl. rewrite Hc, Hr, Hsp. auto.
    + exists r; push_append. rewrite <- Hr. auto.
Qed.

Lemma rstrip_tail s : ends_with_space (rstrip s) = false.
Proof.
  induction s as [|c s' IH]; simpl; [reflexivity|].
  destruct (isspace c && is_empty (rstrip s')) eqn:Hc; [reflexivity|].
  simpl. destruct (rstrip s') as [|c' t] eqn:Ht.
  - simpl in Hc. rewrite andb_true_r in Hc. exact Hc.
  - exact IH.
Qed.

Lemma rstrip_head s :
  starts_with_space s = false -> starts_with_space (rstrip s) = false.
Proof.
  destruct s as [|c s']; simpl; [reflexivity|].
  intros Hc. rewrite Hc. simpl. exact Hc.
Qed.

(** [strip] removes a run of white space at each end and nothing else,
    and what is left neither starts nor ends with white space. *)
Lemma strip_spec s :
  (exists l r, s = l +:+ strip s +:+ r
               /\ all_space l = true /\ all_space r = true)
  /\ starts_with_space (strip s) = false
  /\ ends_with_space (strip s) = false.
Proof.
  unfold strip. split; [|split].
  - destruct (lstrip_decompose s) as [l [Hl Hsl]].
    destruct (rstrip_decompose (lstrip s)) as [r [Hr Hsr]].
    exists l, r. rewrite <- Hr. auto.
  - apply rstrip_head, lstrip_head.
  - apply rstrip_tail.
Qed.

Lemma has_linebreak_snoc cur c :
  has_linebreak cur = false -> is_linebreak c = false ->
  has_linebreak (cur +:+ String c "") = false.
Proof.
  intros Hcur Hc. induction cur as [|d cur IH]; push_append; simpl in *.
  - rewrite Hc. reflexivity.
  - apply orb_false_iff in Hcur as [Hd Hcur].
    rewrite Hd, (IH Hcur). reflexivity.
Qed.

Lemma splitlines_from_no_linebreak n :
  forall s cur, (String.length s <= n)%nat ->
    has_linebreak cur = false ->
    Forall (fun line => has_linebreak line = false) (splitlines_from cur s).
Proof.
  induction n as [|n IH]; intros s cur Hn Hcur.
  - destruct s; simpl in *; [|lia].
    destruct (is_empty cur); auto.
  - destruct s as [|c r]; simpl in *.
    + destruct (is_empty cur); auto.
    + destruct (is_linebreak c) eqn:Hc.
      * constructor; [exact Hcur|].
        destruct r as [|c' r']; [constructor|].
        simpl in Hn.
        destruct ((nat_of_ascii c =? 13)%nat && (nat_of_ascii c' =? 10)%nat);
          apply IH; simpl; auto; lia.
      * apply IH; [lia|]. apply has_linebreak_snoc; assumption.
Qed.

(** No line produced by [splitlines] contains a line boundary. *)
Lemma splitlines_no_linebreak s :
  Forall (fun line => has_linebreak line = false) (splitlines s).
Proof.
  apply (splitlines_from_no_linebreak (String.length s)); auto.
Qed.

(** [startswith] is the byte-prefix relation. *)
Lemma str_startswith_spec s p :
  str_startswith s p = true <-> exists rest, s = p +:+ rest.
Proof.
  revert s. induction p as [|a p IH]; intros s; simpl.
  - split; [intros _; exists s; reflexivity | reflexivity].
  - destruct s as [|c s'].
    + split; [discriminate | intros [rest H]; push_append; discriminate].
    + destruct (Ascii.eqb c a) eqn:Hca.
      * apply Ascii.eqb_eq in Hca; subst c. rewrite IH.
        split; intros [rest H]; exists rest; push_append; congruence.
      * split; [discriminate|]. intros [rest H]. push_append.
        apply Ascii.eqb_neq in Hca. congruence.
Qed.

Lemma str_startswith_empty s : str_startswith s "" = true.
Proof. destruct s; reflexivity. Qed.

Lemma or_empty {A} (x : list A) : or_ x [] = x.
Proof. destruct x; reflexivity. Qed.

End PyFacts.

Example splitlines_ex1 :
  Py.splitlines ("web" +:+ LF +:+ "worker" +:+ LF +:+ LF +:+ "  db  " +:+ LF)
  = ["web"; "worker"; ""; "  db  "].
Proof. reflexivity. Qed.

Example splitlines_ex2 :
  Py.splitlines ("a" +:+ CR +:+ LF +:+ "b" +:+ CR +:+ CR +:+ LF) = ["a"; "b"; ""].
Proof. reflexivity. Qed.

Example strip_ex : Py.strip "  db  " = "db" /\ Py.strip "   " = "" /\ Py.strip " a b " = "a b".
Proof. repeat split. Qed.

(** ** How the operations run *)

Section Runs.
Variable env : Env.

Lemma compute_body_run d args w :
  compute_body env d args w =
  (match env_capture env (clock w) d (discovery_argv args) with
   | inl e => inl e
   | inr out => inr (map Py.strip (Py.splitlines out))
   end,
   record_invocation (discovery d args) w).
Proof.
  unfold compute_body, cd, bind, check_output, ret, discovery, discovery_argv.
  simpl. destruct (env_capture env (clock w) d _); destruct w; reflexivity.
Qed.

Lemma compute_hit d args w e :
  disk w !! (d, args) = Some e -> fresh 60 (clock w) e = true ->
  compute env d args w = (inr (services e), w).
Proof.
  intros Hlook Hfresh. unfold compute, cache_disk. cbv zeta.
  rewrite Hlook, Hfresh. reflexivity.
Qed.

Lemma compute_miss d args w :
  live w (d, args) = false ->
  compute env d args w =
  match env_capture env (clock w) d (discovery_argv args) with
  | inr out =>
      let found := map Py.strip (Py.splitlines out) in
      (inr found,
       set_disk (<[(d, args) := mkEntry (d, args) found (clock w)]> (disk w))
                (record_invocation (discovery d args) w))
  | inl e => (inl e, record_invocation (discovery d args) w)
  end.
Proof.
  unfold live, compute, cache_disk. intros Hlive. cbv zeta.
  rewrite compute_body_run.
  destruct (disk w !! (d, args)) as [e|]; [rewrite Hlive|];
    destruct (env_capture env (clock w) d _); reflexivity.
Qed.

Variable directory : Setting string.
Variable extra_options : Setting (list string).

Lemma choices_run w :
  choices env directory extra_options w =
  compute env (fst (key_of env directory extra_options w))
    (snd (key_of env directory extra_options w)) w.
Proof. reflexivity. Qed.

Lemma complete_run incomplete w :
  complete env directory extra_options incomplete w =
  match choices env directory extra_options w with
  | (inl e, w') => (inl e, w')
  | (inr cs, w') =>
      (inr (List.filter (fun choice => startswith choice incomplete) cs), w')
  end.
Proof. reflexivity. Qed.

End Runs.

(** ** Discovery *)

(** C1, as stated, fails: on the output "web\nworker\n\n  db  \n" a
    discovery yields ["web"; "worker"; ""; "db"], the blank line is kept as
    an empty name, so the result is not ["web"; "worker"; "db"]. *)
Lemma discovery_sample_keeps_blank_line :
  fst (choices (host (fun _ => sample_output) "alice") app_dir app_flags
         (initial_world "/home/alice"))
  = inr ["web"; "worker"; ""; "db"]
  /\ fst (choices (host (fun _ => sample_output) "alice") app_dir app_flags
            (initial_world "/home/alice"))
     <> inr ["web"; "worker"; "db"].
Proof.
  assert (H : fst (choices (host (fun _ => sample_output) "alice") app_dir
                     app_flags (initial_world "/home/alice"))
              = inr ["web"; "worker"; ""; "db"]) by (vm_compute; reflexivity).
  split; [exact H | rewrite H; discriminate].
Qed.

(** C1 (amended): a discovery splits the orchestrator's standard output
    into lines and trims the white space around each line; it discards no
    line, so the result has one name per line of output and a blank line
    gives the empty name.  No line holds a line boundary, and every name
    is its line without a run of white space at each end, so it neither
    starts nor ends with white space.  On the output
    "web\nworker\n\n  db  \n" the result is ["web"; "worker"; ""; "db"]. *)
Theorem discovery_splits_and_trims
    (env : Env) (directory : Setting string)
    (extra_options : Setting (list string)) (w : World) (out : string) :
  let key := key_of env directory extra_options w in
  live w key = false ->
  env_capture env (clock w) (fst key) (discovery_argv (snd key)) = inr out ->
  let found := map Py.strip (Py.splitlines out) in
  fst (choices env directory extra_options w) = inr found
  /\ length found = length (Py.splitlines out)
  /\ (forall i line, Py.splitlines out !! i = Some line ->
        found !! i = Some (Py.strip line)
        /\ PySpec.has_linebreak line = false
        /\ exists l r, line = l +:+ Py.strip line +:+ r
                       /\ PySpec.all_space l = true
                       /\ PySpec.all_space r = true)
  /\ Forall (fun name => PySpec.starts_with_space name = false
                         /\ PySpec.ends_with_space name = false) found
  /\ (out = sample_output -> found = ["web"; "worker"; ""; "db"]).
Proof.
  intros key Hlive Hout found.
  split; [|split; [|split; [|split]]].
  - rewrite choices_run, compute_miss by exact Hlive.
    fold key. rewrite Hout. reflexivity.
  - apply length_map.
  - intros i line Hi. split; [|split].
    + unfold found. rewrite list_lookup_fmap, Hi. reflexivity.
    + pose proof (PyFacts.splitlines_no_linebreak out) as Hall.
      rewrite Forall_forall in Hall. apply Hall.
      eapply list_elem_of_lookup_2; eassumption.
    + apply PyFacts.strip_spec.
  - unfold found. apply Forall_forall. intros name Hin.
    apply list_elem_of_fmap in Hin as [line [-> _]].
    split; apply PyFacts.strip_spec.
  - intros ->. reflexivity.
Qed.

Lemma discovery_splits_and_trims_witness :
  fst (choices (host (fun _ => sample_output) "alice") app_dir app_flags
         (initial_world "/home/alice"))
  = inr (map Py.strip (Py.splitlines sample_output)).
Proof.
  apply (discovery_splits_and_trims (host (fun _ => sample_output) "alice")
           app_dir app_flags (initial_world "/home/alice") sample_output);
    reflexivity.
Defined.

(** ** Discovery failures *)

(** C2, as stated, fails: when the discovery fails, [complete] does not
    return the empty sequence; it raises the error of the discovery. *)
Lemma completion_raises_when_discovery_fails :
  complete broken_host app_dir app_flags "" (initial_world "/home/alice")
  = (inl compose_failed,
     record_invocation (discovery "/srv/app" ["-p"; "sim"])
       (initial_world "/home/alice"))
  /\ fst (complete broken_host app_dir app_flags ""
            (initial_world "/home/alice")) <> inr [].
Proof.
  assert (H : complete broken_host app_dir app_flags ""
                (initial_world "/home/alice")
              = (inl compose_failed,
                 record_invocation (discovery "/srv/app" ["-p"; "sim"])
                   (initial_world "/home/alice")))
    by (vm_compute; reflexivity).
  split; [exact H | rewrite H; discriminate].
Qed.

(** C2 (amended): for every directory, extra flags and prefix, when the
    external discovery is started and fails, both the listing ([choices])
    and the completion ([complete]) raise the error of the discovery; the
    failure is not cached: the cache is left as it was. *)
Theorem discovery_failure_is_raised_and_not_cached
    (env : Env) (directory : Setting string)
    (extra_options : Setting (list string)) (incomplete : string)
    (w : World) (e : exn) :
  let key := key_of env directory extra_options w in
  live w key = false ->
  env_capture env (clock w) (fst key) (discovery_argv (snd key)) = inl e ->
  let w' := record_invocation (discovery (fst key) (snd key)) w in
  choices env directory extra_options w = (inl e, w')
  /\ complete env directory extra_options incomplete w = (inl e, w')
  /\ disk w' = disk w.
Proof.
  intros key Hlive Hfail w'.
  assert (Hc : choices env directory extra_options w = (inl e, w')).
  { rewrite choices_run, compute_miss by exact Hlive.
    fold key. rewrite Hfail. reflexivity. }
  split; [exact Hc | split; [|reflexivity]].
  rewrite complete_run, Hc. reflexivity.
Qed.

Lemma discovery_failure_is_raised_and_not_cached_witness :
  choices broken_host app_dir app_flags (initial_world "/home/alice")
  = (inl compose_failed,
     record_invocation (discovery "/srv/app" ["-p"; "sim"])
       (initial_world "/home/alice")).
Proof.
  apply (discovery_failure_is_raised_and_not_cached broken_host app_dir
           app_flags "" (initial_world "/home/alice") compose_failed);
    reflexivity.
Defined.

(** ** Expiry of the cache *)

(** C3: starting where the key has no live entry and the discovery
    succeeds, a listing starts exactly one process and stores its result
    with the current time.  Any later listing less than 60 seconds after
    that time returns the stored sequence and leaves the world as it is (no
    process, no write), so the two listings started one process.  A listing
    60 seconds or more after that time starts one more process, and when
    that one gives output, its result is returned and the entry of the key
    is replaced by a new one carrying the new time. *)
Theorem listing_is_cached_for_sixty_seconds
    (env : Env) (directory : Setting string)
    (extra_options : Setting (list string)) (w : World) (out : string) :
  let key := key_of env directory extra_options w in
  let listServices := choices env directory extra_options in
  live w key = false ->
  env_capture env (clock w) (fst key) (discovery_argv (snd key)) = inr out ->
  let found := map Py.strip (Py.splitlines out) in
  let w1 := snd (listServices w) in
  fst (listServices w) = inr found
  /\ journal w1 = journal w ++ [discovery (fst key) (snd key)]
  /\ disk w1 = <[key := mkEntry key found (clock w)]> (disk w)
  /\ (forall t, t - clock w < 60 ->
        listServices (set_clock t w1) = (inr found, set_clock t w1))
  /\ (forall t, 60 <= t - clock w ->
        let w2 := snd (listServices (set_clock t w1)) in
        journal w2 = journal w1 ++ [discovery (fst key) (snd key)]
        /\ forall out',
             env_capture env t (fst key) (discovery_argv (snd key)) = inr out' ->
             let found' := map Py.strip (Py.splitlines out') in
             fst (listServices (set_clock t w1)) = inr found'
             /\ disk w2 = <[key := mkEntry key found' t]> (disk w)
             /\ disk w2 !! key = Some (mkEntry key found' t)).
Proof.
  intros key listServices Hlive Hout found w1.
  assert (Hrun : listServices w =
                 (inr found,
                  set_disk (<[key := mkEntry key found (clock w)]> (disk w))
                    (record_invocation (discovery (fst key) (snd key)) w))).
  { unfold listServices. rewrite choices_run, compute_miss by exact Hlive.
    fold key. rewrite Hout. reflexivity. }
  assert (Hw1 : w1 = set_disk (<[key := mkEntry key found (clock w)]> (disk w))
                       (record_invocation (discovery (fst key) (snd key)) w))
    by (unfold w1; rewrite Hrun; reflexivity).
  assert (Hlook : disk w1 !! key = Some (mkEntry key found (clock w)))
    by (rewrite Hw1; simpl; apply lookup_insert_eq).
  assert (Hkey : forall t, key_of env directory extra_options (set_clock t w1) = key)
    by (intros t; rewrite Hw1; reflexivity).
  split; [rewrite Hrun; reflexivity|].
  split; [rewrite Hw1; reflexivity|].
  split; [rewrite Hw1; reflexivity|].
  split.
  - intros t Ht. unfold listServices. rewrite choices_run, Hkey.
    rewrite (compute_hit env (fst key) (snd key) (set_clock t w1)
               (mkEntry key found (clock w))).
    + reflexivity.
    + exact Hlook.
    + unfold fresh. simpl. apply Z.ltb_lt. exact Ht.
  - intros t Ht w2.
    assert (Hstale : live (set_clock t w1) key = false).
    { unfold live. simpl. rewrite Hlook. unfold fresh. simpl.
      apply Z.ltb_ge. exact Ht. }
    assert (Hrun2 : listServices (set_clock t w1) =
                    compute env (fst key) (snd key) (set_clock t w1))
      by (unfold listServices; rewrite choices_run, Hkey; reflexivity).
    unfold w2. rewrite Hrun2, compute_miss by exact Hstale. simpl clock.
    split.
    + destruct (env_capture env t (fst key) (discovery_argv (snd key)));
        reflexivity.
    + intros out' Hout'. cbv zeta.
      set (found' := map Py.strip (Py.splitlines out')).
      rewrite Hout'. simpl. fold found'.
      split; [reflexivity|].
      change (<[key := mkEntry key found' t]> (disk w1)
              = <[key := mkEntry key found' t]> (disk w)
              /\ <[key := mkEntry key found' t]> (disk w1) !! key
                 = Some (mkEntry key found' t)).
      split; [|apply lookup_insert_eq].
      rewrite Hw1. simpl. apply insert_insert_eq.
Qed.

Lemma listing_is_cached_for_sixty_seconds_witness :
  fst (choices changing_host app_dir app_flags (initial_world "/home/alice"))
  = inr (map Py.strip (Py.splitlines sample_output)).
Proof.
  apply (listing_is_cached_for_sixty_seconds changing_host app_dir app_flags
           (initial_world "/home/alice") sample_output); reflexivity.
Defined.

(** Three listings at 0 s, 59 s and 60 s on that host: the second is served
    from the cache, the third is a new discovery. *)
Example three_listings :
  let ls := choices changing_host app_dir app_flags in
  let w1 := snd (ls (initial_world "/home/alice")) in
  let w2 := snd (ls (set_clock 59 w1)) in
  let r3 := ls (set_clock 60 w2) in
  fst (ls (set_clock 59 w1)) = inr ["web"; "worker"; ""; "db"]
  /\ length (journal w2) = 1%nat
  /\ fst r3 = inr ["api"]
  /\ length (journal (snd r3)) = 2%nat.
Proof. vm_compute. repeat split. Qed.

(** ** Completion *)

(** C5: when the listing returns [found], the completion returns, in the
    same world, the elements of [found] that start with the prefix (those of
    the form prefix followed by some text, compared character by character
    with no case folding), in the order of [found]; the empty prefix returns
    all of [found], and "web" on ["web"; "worker"; "webhook"] returns
    ["web"; "webhook"]. *)
Theorem completion_filters_by_prefix
    (env : Env) (directory : Setting string)
    (extra_options : Setting (list string)) (incomplete : string)
    (w w' : World) (found : list string) :
  choices env directory extra_options w = (inr found, w') ->
  exists candidates,
    complete env directory extra_options incomplete w = (inr candidates, w')
    /\ candidates
       = List.filter (fun s => Py.str_startswith s incomplete) found
    /\ sublist candidates found
    /\ (forall s, In s candidates <->
                  In s found /\ exists rest, s = incomplete +:+ rest)
    /\ (incomplete = "" -> candidates = found)
    /\ (found = ["web"; "worker"; "webhook"] -> incomplete = "web" ->
        candidates = ["web"; "webhook"])
    /\ (found = ["web"; "worker"; "webhook"] -> incomplete = "Web" ->
        candidates = []).
Proof.
  intros Hls.
  exists (List.filter (fun s => Py.str_startswith s incomplete) found).
  split; [rewrite complete_run, Hls; reflexivity|].
  split; [reflexivity|].
  split; [|split; [|split; [|split]]].
  - clear Hls. induction found as [|s found IH]; simpl; [constructor|].
    destruct (Py.str_startswith s incomplete);
      [apply sublist_skip | apply sublist_cons]; exact IH.
  - intros s. rewrite filter_In, PyFacts.str_startswith_spec. reflexivity.
  - intros ->. clear Hls. induction found as [|s found IH]; simpl;
      [reflexivity | f_equal; exact IH].
  - intros -> ->. reflexivity.
  - intros -> ->. reflexivity.
Qed.

Lemma completion_filters_by_prefix_witness :
  exists candidates,
    complete web_host app_dir app_flags "web" (initial_world "/home/alice")
    = (inr candidates,
       snd (choices web_host app_dir app_flags (initial_world "/home/alice")))
    /\ candidates = ["web"; "webhook"].
Proof.
  destruct (completion_filters_by_prefix web_host app_dir app_flags "web"
              (initial_world "/home/alice")
              (snd (choices web_host app_dir app_flags
                      (initial_world "/home/alice")))
              ["web"; "worker"; "webhook"] eq_refl)
    as [candidates [Hrun [_ [_ [_ [_ [Hweb _]]]]]]].
  exists candidates. split; [exact Hrun | apply Hweb; reflexivity].
Defined.

(** ** The docker-group check *)

Lemma existsb_eqb_In (x : string) (l : list string) :
  existsb (String.eqb x) l = true <-> In x l.
Proof.
  rewrite existsb_exists. split.
  - intros [y [Hin Heq]]. apply String.eqb_eq in Heq. congruence.
  - intros Hin. exists x. split; [exact Hin | apply String.eqb_refl].
Qed.

Lemma member_of_spec all_groups user name :
  member_of all_groups user name = true <->
  exists g, In g all_groups /\ gr_name g = name /\ In user (gr_mem g).
Proof.
  unfold member_of. rewrite existsb_exists.
  split; intros [g [Hin H]]; exists g; (split; [exact Hin|]).
  - apply andb_true_iff in H as [Hn Hm].
    apply String.eqb_eq in Hn. apply existsb_eqb_In in Hm. auto.
  - destruct H as [Hn Hm]. apply andb_true_iff.
    split; [apply String.eqb_eq; exact Hn | apply existsb_eqb_In; exact Hm].
Qed.

Section GroupCheck.
Variable env : Env.

Lemma groups_of_user_ok user all_groups :
  env_getuser env = inr user ->
  groups_of_user env all_groups
  = inr (map gr_name
           (List.filter (fun g => existsb (String.eqb user) (gr_mem g))
              all_groups)).
Proof.
  intros Hu. induction all_groups as [|g rest IH]; simpl; [reflexivity|].
  rewrite Hu, IH. destruct (existsb (String.eqb user) (gr_mem g)); reflexivity.
Qed.

Lemma docker_in_groups user all_groups :
  existsb (String.eqb "docker")
    (map gr_name
       (List.filter (fun g => existsb (String.eqb user) (gr_mem g))
          all_groups))
  = member_of all_groups user "docker".
Proof.
  unfold member_of. induction all_groups as [|g rest IH]; simpl; [reflexivity|].
  rewrite <- IH. rewrite (String.eqb_sym (gr_name g) "docker").
  destruct (existsb (String.eqb user) (gr_mem g)); simpl.
  - rewrite andb_true_r. reflexivity.
  - rewrite andb_false_r. reflexivity.
Qed.

(** The outcome of the [try] body when every call in it returns. *)
Lemma user_in_docker_group_try_ok user all_groups :
  env_import_grp env = inr tt ->
  env_getgrall env = inr all_groups ->
  env_getuser env = inr user ->
  user_in_docker_group_try env
  = if member_of all_groups user "docker" then inr tt
    else inl not_in_docker_group.
Proof.
  intros Hi Hg Hu. unfold user_in_docker_group_try.
  rewrite Hi, Hg, (groups_of_user_ok user all_groups Hu), docker_in_groups.
  destruct (member_of all_groups user "docker"); reflexivity.
Qed.

Lemma subclass_of_ImportError c :
  issubclass c ImportError = true <->
  c = ImportError \/ c = ModuleNotFoundError.
Proof.
  split.
  - destruct c; simpl; intros H; try discriminate H; auto.
  - intros [-> | ->]; reflexivity.
Qed.

End GroupCheck.

(** C10: whatever error the body of the docker-group check raises, the
    check returns normally exactly when that error is an ImportError (the
    class itself or its subclass ModuleNotFoundError, the "module is
    unavailable" failure); any other error is raised to the caller
    unchanged.  In particular the not-in-group error and a PermissionError
    are raised to the caller. *)
Theorem group_check_swallows_only_import_error (env : Env) (e : exn) :
  user_in_docker_group_try env = inl e ->
  (user_in_docker_group env = inr tt <->
   exn_type e = ImportError \/ exn_type e = ModuleNotFoundError)
  /\ (exn_type e <> ImportError -> exn_type e <> ModuleNotFoundError ->
      user_in_docker_group env = inl e)
  /\ (e = not_in_docker_group -> user_in_docker_group env = inl e)
  /\ (exn_type e = PermissionError -> user_in_docker_group env = inl e).
Proof.
  intros Htry. unfold user_in_docker_group. rewrite Htry.
  unfold caught_by.
  pose proof (subclass_of_ImportError (exn_type e)) as Hsub.
  destruct (issubclass (exn_type e) ImportError) eqn:Hc.
  - assert (Hi : exn_type e = ImportError \/ exn_type e = ModuleNotFoundError)
      by (apply Hsub; reflexivity).
    split; [tauto|]. split; [tauto|]. split.
    + intros ->. simpl in Hi. destruct Hi; discriminate.
    + intros Hp. rewrite Hp in Hi. destruct Hi; discriminate.
  - assert (Hi : ~ (exn_type e = ImportError \/ exn_type e = ModuleNotFoundError))
      by (intros H; apply Hsub in H; discriminate).
    split; [|auto]. split; [discriminate | tauto].
Qed.

Lemma group_check_swallows_only_import_error_witness :
  user_in_docker_group denied_host
  = inl (Exn PermissionError "Permission denied: '/etc/group'").
Proof.
  apply (group_check_swallows_only_import_error denied_host
           (Exn PermissionError "Permission denied: '/etc/group'"));
    reflexivity.
Defined.

Example group_check_examples :
  user_in_docker_group no_grp_host = inr tt
  /\ user_in_docker_group (host (fun _ => "") "alice") = inr tt
  /\ user_in_docker_group (host (fun _ => "") "bob") = inl not_in_docker_group.
Proof. vm_compute. repeat split. Qed.

(** ** Sub-commands *)

Section Commands.
Variable env : Env.
Variable directory : Setting string.
Variable extra_options : Setting (list string).

Lemma up_run service force_recreate scales w :
  up env directory extra_options service force_recreate scales w =
  match user_in_docker_group env with
  | inl e => (inl e, w)
  | inr _ =>
      docker_compose env directory extra_options
        (up_argv service force_recreate scales) w
  end.
Proof.
  unfold up, bind, lift. destruct (user_in_docker_group env); reflexivity.
Qed.

Lemma docker_compose_run args w :
  docker_compose env directory extra_options args w
  = (env_stream env (clock w) (inv_cwd (forwarded env directory extra_options w args))
       (inv_argv (forwarded env directory extra_options w args)),
     record_invocation (forwarded env directory extra_options w args) w).
Proof. reflexivity. Qed.

(** The loop over [scales] lays the pairs out in order. *)
Lemma scale_args_flat_map scales :
  scale_args scales = flat_map (fun scale => ["--scale"; scale]) scales.
Proof.
  unfold scale_args.
  assert (H : forall acc,
             fold_left (fun up_args scale => up_args ++ ["--scale"; scale])
               scales acc
             = acc ++ flat_map (fun scale => ["--scale"; scale]) scales).
  { induction scales as [|scale rest IH]; intros acc; simpl.
    - rewrite app_nil_r. reflexivity.
    - rewrite IH, <- app_assoc. reflexivity. }
  apply (H []).
Qed.

End Commands.

(** C4: [up] with [force_recreate] set and [scales = ["web=2"]] builds the
    arguments up -d --build --scale web=2 --force-recreate followed by the
    requested services in their order, and, once the docker-group check has
    passed, starts exactly one process: docker-compose with the extra
    options followed by these arguments, in the project directory. *)
Theorem up_forwards_scale_and_force_recreate
    (env : Env) (directory : Setting string)
    (extra_options : Setting (list string)) (service : list string)
    (w : World) :
  user_in_docker_group env = inr tt ->
  let args := ["up"; "-d"; "--build"; "--scale"; "web=2"; "--force-recreate"]
                ++ service in
  up_argv service true ["web=2"] = args
  /\ journal (snd (up env directory extra_options service true ["web=2"] w))
     = journal w ++ [forwarded env directory extra_options w args]
  /\ fst (up env directory extra_options service true ["web=2"] w)
     = env_stream env (clock w) (env_abspath env (cwd w) (resolve directory))
         ("docker-compose" :: resolve extra_options ++ args).
Proof.
  intros Hcheck args. rewrite up_run, Hcheck.
  split; [reflexivity | split; reflexivity].
Qed.

Lemma up_forwards_scale_and_force_recreate_witness :
  journal (snd (up (host (fun _ => "") "alice") app_dir app_flags
                  ["web"; "db"] true ["web=2"] (initial_world "/home/alice")))
  = [mkInvocation Streamed "/srv/app"
       ["docker-compose"; "-p"; "sim"; "up"; "-d"; "--build"; "--scale";
        "web=2"; "--force-recreate"; "web"; "db"]].
Proof.
  apply (up_forwards_scale_and_force_recreate (host (fun _ => "") "alice")
           app_dir app_flags ["web"; "db"] (initial_world "/home/alice")).
  reflexivity.
Defined.

(** C6: [down] forwards down --remove-orphans when the option is left at
    its default, and exactly down when the option is switched off. *)
Theorem down_forwards_remove_orphans
    (env : Env) (directory : Setting string)
    (extra_options : Setting (list string)) (w : World) :
  down_argv (remove_orphans_option None) = ["down"; "--remove-orphans"]
  /\ down_argv (remove_orphans_option (Some false)) = ["down"]
  /\ journal (snd (down env directory extra_options
                     (remove_orphans_option None) w))
     = journal w ++ [forwarded env directory extra_options w
                       ["down"; "--remove-orphans"]]
  /\ journal (snd (down env directory extra_options
                     (remove_orphans_option (Some false)) w))
     = journal w ++ [forwarded env directory extra_options w ["down"]].
Proof. repeat split. Qed.

(** C7: [up] runs the docker-group check before it starts any process.
    When the groups can be listed and no group named docker has the current
    user as a member, [up] raises the not-in-group error, whose message says
    what to do, and starts no process: the world is unchanged.  When the
    [grp] module cannot be imported, the check is skipped and [up] goes on
    as [docker_compose] with its arguments, starting one process. *)
Theorem up_checks_docker_group_first
    (env : Env) (directory : Setting string)
    (extra_options : Setting (list string)) (service : list string)
    (force_recreate : bool) (scales : list string) (w : World) :
  (forall all_groups user,
      env_import_grp env = inr tt ->
      env_getgrall env = inr all_groups ->
      env_getuser env = inr user ->
      member_of all_groups user "docker" = false ->
      up env directory extra_options service force_recreate scales w
      = (inl not_in_docker_group, w)
      /\ exn_message not_in_docker_group
         = "The current user is not in the docker group. Please add it to '/etc/group' or use 'fix-up'")
  /\ (forall e,
        env_import_grp env = inl e ->
        exn_type e = ImportError \/ exn_type e = ModuleNotFoundError ->
        up env directory extra_options service force_recreate scales w
        = docker_compose env directory extra_options
            (up_argv service force_recreate scales) w
        /\ journal (snd (up env directory extra_options service
                           force_recreate scales w))
           = journal w ++ [forwarded env directory extra_options w
                             (up_argv service force_recreate scales)]).
Proof.
  split.
  - intros all_groups user Hi Hg Hu Hnot. split; [|reflexivity].
    rewrite up_run. unfold user_in_docker_group.
    rewrite (user_in_docker_group_try_ok env user all_groups Hi Hg Hu), Hnot.
    reflexivity.
  - intros e Hi Hclass.
    assert (Hup : up env directory extra_options service force_recreate scales w
                  = docker_compose env directory extra_options
                      (up_argv service force_recreate scales) w).
    { rewrite up_run. unfold user_in_docker_group, user_in_docker_group_try.
      rewrite Hi. unfold caught_by.
      apply subclass_of_ImportError in Hclass. rewrite Hclass. reflexivity. }
    split; [exact Hup | rewrite Hup; reflexivity].
Qed.

Lemma up_checks_docker_group_first_witness :
  up (host (fun _ => "") "bob") app_dir app_flags ["web"] false []
     (initial_world "/home/bob")
  = (inl not_in_docker_group, initial_world "/home/bob")
  /\ journal (snd (up no_grp_host app_dir app_flags ["web"] false []
                     (initial_world "/home/alice")))
     = [mkInvocation Streamed "/srv/app"
          ["docker-compose"; "-p"; "sim"; "up"; "-d"; "--build"; "web"]].
Proof.
  split.
  - apply (proj1 (up_checks_docker_group_first (host (fun _ => "") "bob")
                    app_dir app_flags ["web"] false []
                    (initial_world "/home/bob")) unix_groups "bob");
      reflexivity.
  - apply (proj2 (up_checks_docker_group_first no_grp_host app_dir app_flags
                    ["web"] false [] (initial_world "/home/alice"))
             (Exn ModuleNotFoundError "No module named 'grp'"));
      [reflexivity | right; reflexivity].
Defined.

(** C9: [ps] and [status] behave the same: for every list of services, in
    every world, both start the same single process, docker-compose with
    the extra options, ps and the requested services, in the project
    directory, and end with the same outcome in the same world. *)
Theorem ps_and_status_are_identical
    (env : Env) (directory : Setting string)
    (extra_options : Setting (list string)) (service : list string)
    (w : World) :
  ps env directory extra_options service w
  = status env directory extra_options service w
  /\ ps env directory extra_options service w
     = docker_compose env directory extra_options ("ps" :: service) w
  /\ journal (snd (ps env directory extra_options service w))
     = journal w ++ [forwarded env directory extra_options w ("ps" :: service)]
  /\ journal (snd (status env directory extra_options service w))
     = journal w ++ [forwarded env directory extra_options w ("ps" :: service)].
Proof.
  unfold ps, status. rewrite PyFacts.or_empty. repeat split.
Qed.

(** ** The cache keeps keys apart *)

Section CacheInvariant.
Variable env : Env.

Lemma compute_cases d args w :
  (exists e, disk w !! (d, args) = Some e /\ fresh 60 (clock w) e = true
             /\ compute env d args w = (inr (services e), w))
  \/ (live w (d, args) = false
      /\ ((exists err,
             env_capture env (clock w) d (discovery_argv args) = inl err
             /\ compute env d args w
                = (inl err, record_invocation (discovery d args) w))
          \/ (exists out,
                env_capture env (clock w) d (discovery_argv args) = inr out
                /\ compute env d args w
                   = (inr (map Py.strip (Py.splitlines out)),
                      set_disk
                        (<[(d, args) :=
                             mkEntry (d, args)
                               (map Py.strip (Py.splitlines out)) (clock w)]>
                           (disk w))
                        (record_invocation (discovery d args) w))))).
Proof.
  destruct (live w (d, args)) eqn:Hlive.
  - left. unfold live in Hlive.
    destruct (disk w !! (d, args)) as [e|] eqn:Hlook; [|discriminate].
    exists e. split; [reflexivity|]. split; [exact Hlive|].
    apply compute_hit; assumption.
  - right. split; [reflexivity|].
    rewrite (compute_miss env d args w Hlive).
    destruct (env_capture env (clock w) d (discovery_argv args)) as [err|out].
    + left. exists err. split; reflexivity.
    + right. exists out. split; reflexivity.
Qed.

Lemma compute_keeps_cache_sound d args w :
  cache_sound env w -> cache_sound env (snd (compute env d args w)).
Proof.
  intros Hs.
  destruct (compute_cases d args w)
    as [[e [_ [_ ->]]] | [_ [[err [_ ->]] | [out [Hout ->]]]]];
    simpl; try exact Hs.
  intros k e. simpl. rewrite lookup_insert.
  destruct (decide ((d, args) = k)) as [<-|Hne].
  - intros [= <-]. simpl. split; [reflexivity|].
    exists out. split; [exact Hout | reflexivity].
  - apply Hs.
Qed.

Lemma reachable_cache_sound w : reachable env w -> cache_sound env w.
Proof.
  induction 1 as [start_dir | t w _ IH | d w _ IH | d args w _ IH
                 | argv d w _ IH].
  - intros k e. simpl. rewrite lookup_empty. discriminate.
  - exact IH.
  - exact IH.
  - apply compute_keeps_cache_sound. exact IH.
  - exact IH.
Qed.

(** A listing writes under its own key only. *)
Lemma compute_other_keys d args w (k : Key) :
  k <> (d, args) ->
  disk (snd (compute env d args w)) !! k = disk w !! k.
Proof.
  intros Hne.
  destruct (compute_cases d args w)
    as [[e [_ [_ ->]]] | [_ [[err [_ ->]] | [out [_ ->]]]]];
    simpl; try reflexivity.
  apply lookup_insert_ne. congruence.
Qed.

(** After a listing that returned, the key holds one entry: it is live
    and holds what was returned. *)
Lemma compute_entry d args w found :
  fst (compute env d args w) = inr found ->
  exists e, disk (snd (compute env d args w)) !! (d, args) = Some e
            /\ services e = found
            /\ fresh 60 (clock (snd (compute env d args w))) e = true
            /\ (createdAt e = clock w \/ disk w !! (d, args) = Some e).
Proof.
  destruct (compute_cases d args w)
    as [[e [Hlook [Hfresh ->]]] | [_ [[err [_ ->]] | [out [_ ->]]]]];
    simpl.
  - intros [= <-]. exists e. auto.
  - discriminate.
  - intros [= <-]. eexists. split; [apply lookup_insert_eq|].
    simpl. split; [reflexivity|]. split; [|left; reflexivity].
    unfold fresh. simpl. apply Z.ltb_lt. lia.
Qed.

Lemma choices_reachable directory extra_options w :
  reachable env w ->
  reachable env (snd (choices env directory extra_options w)).
Proof. intros H. rewrite choices_run. apply reach_compute. exact H. Qed.

Lemma complete_reachable directory extra_options incomplete w :
  reachable env w ->
  reachable env (snd (complete env directory extra_options incomplete w)).
Proof.
  intros H. rewrite complete_run.
  pose proof (choices_reachable directory extra_options w H) as Hc.
  destruct (choices env directory extra_options w) as [[e|cs] w']; exact Hc.
Qed.

Lemma docker_compose_reachable directory extra_options args w :
  reachable env w ->
  reachable env (snd (docker_compose env directory extra_options args w)).
Proof. intros H. apply (reach_call env _ _ w H). Qed.

End CacheInvariant.

(** C8: in every world the module can reach, for two distinct directories
    and the same extra flags:
    - a listing for one directory leaves the entry of the other as it is;
    - what a listing for a directory returns is the parsed output of a
      discovery run in that very directory with these flags, now or less
      than 60 seconds ago;
    - every entry carries the key it is stored under, so two entries with
      the same key are one entry, and the entries of the two directories
      are different entries;
    - after a listing that returned, its key holds exactly one entry, a
      live one holding what was returned. *)
Theorem distinct_directories_never_share_an_entry
    (env : Env) (w : World) (d1 d2 : string) (flags : list string) :
  reachable env w ->
  d1 <> d2 ->
  disk (snd (compute env d2 flags w)) !! (d1, flags) = disk w !! (d1, flags)
  /\ (forall found,
        fst (compute env d1 flags w) = inr found ->
        exists t out,
          env_capture env t d1 (discovery_argv flags) = inr out
          /\ found = map Py.strip (Py.splitlines out)
          /\ (t = clock w \/ clock w - t < 60))
  /\ (forall (k1 k2 : Key) e1 e2,
        disk w !! k1 = Some e1 -> disk w !! k2 = Some e2 ->
        entry_key e1 = entry_key e2 -> k1 = k2 /\ e1 = e2)
  /\ (forall e1 e2,
        disk w !! (d1, flags) = Some e1 -> disk w !! (d2, flags) = Some e2 ->
        e1 <> e2)
  /\ (forall found,
        fst (compute env d1 flags w) = inr found ->
        exists e,
          disk (snd (compute env d1 flags w)) !! (d1, flags) = Some e
          /\ services e = found
          /\ live (snd (compute env d1 flags w)) (d1, flags) = true).
Proof.
  intros Hreach Hne.
  pose proof (reachable_cache_sound env w Hreach) as Hs.
  split; [|split; [|split; [|split]]].
  - apply compute_other_keys. congruence.
  - intros found Hfound.
    pose proof (compute_keeps_cache_sound env d1 flags w Hs) as Hs'.
    destruct (compute_entry env d1 flags w found Hfound)
      as [e [Hlook [Hserv [Hfresh Hwhen]]]].
    destruct (Hs' _ _ Hlook) as [_ [out [Hout Hparse]]].
    exists (createdAt e), out. simpl in Hout.
    split; [exact Hout|]. split; [congruence|].
    destruct Hwhen as [Ht | Hold]; [left; exact Ht|].
    right.
    destruct (compute_cases env d1 flags w)
      as [[e' [Hlook' [Hfresh' _]]] | [Hdead _]].
    + rewrite Hold in Hlook'. injection Hlook' as <-.
      unfold fresh in Hfresh'. apply Z.ltb_lt in Hfresh'. exact Hfresh'.
    + unfold live in Hdead. rewrite Hold in Hdead.
      destruct (compute_cases env d1 flags w)
        as [[e' [Hlook' [Hfresh' _]]] | [_ [[err [_ Hrun]] | [out' [_ Hrun]]]]].
      * rewrite Hold in Hlook'. injection Hlook' as <-. congruence.
      * rewrite Hrun in Hfound. discriminate.
      * rewrite Hrun in Hlook. simpl in Hlook.
        rewrite lookup_insert_eq in Hlook. injection Hlook as <-.
        rewrite Hrun in Hfresh. simpl in Hfresh.
        unfold fresh in Hdead, Hfresh. simpl in *.
        apply Z.ltb_lt in Hfresh. lia.
  - intros k1 k2 e1 e2 H1 H2 Hk.
    destruct (Hs _ _ H1) as [E1 _]. destruct (Hs _ _ H2) as [E2 _].
    assert (Hsame : k1 = k2) by congruence.
    split; [exact Hsame|]. rewrite Hsame in H1. congruence.
  - intros e1 e2 H1 H2 Heq.
    destruct (Hs _ _ H1) as [E1 _]. destruct (Hs _ _ H2) as [E2 _].
    subst e2. rewrite E1 in E2. congruence.
  - intros found Hfound.
    destruct (compute_entry env d1 flags w found Hfound)
      as [e [Hlook [Hserv [Hfresh _]]]].
    exists e. split; [exact Hlook|]. split; [exact Hserv|].
    unfold live. rewrite Hlook. exact Hfresh.
Qed.

Lemma distinct_directories_never_share_an_entry_witness :
  disk (snd (compute changing_host "/srv/other" ["-p"; "sim"]
               (snd (compute changing_host "/srv/app" ["-p"; "sim"]
                       (initial_world "/home/alice")))))
    !! ("/srv/app", ["-p"; "sim"])
  = disk (snd (compute changing_host "/srv/app" ["-p"; "sim"]
                 (initial_world "/home/alice")))
      !! ("/srv/app", ["-p"; "sim"]).
Proof.
  apply (distinct_directories_never_share_an_entry changing_host
           (snd (compute changing_host "/srv/app" ["-p"; "sim"]
                   (initial_world "/home/alice")))
           "/srv/app" "/srv/other" ["-p"; "sim"]).
  - apply reach_compute, reach_initial.
  - discriminate.
Defined.

(** ** Reading the orchestrator's output back *)

Module LineFacts.
Import Py PySpec.

Lemma append_empty_r (s : string) : s +:+ "" = s.
Proof.
  induction s as [|c s IH]; [reflexivity|].
  rewrite PyFacts.append_cons, IH. reflexivity.
Qed.

Lemma append_snoc (cur : string) c (s : string) :
  (cur +:+ String c "") +:+ s = cur +:+ String c s.
Proof.
  induction cur as [|d cur IH]; [reflexivity|].
  rewrite !PyFacts.append_cons, IH. reflexivity.
Qed.

(** A line ended by a line feed is split off whole. *)
Lemma splitlines_from_lf name :
  has_linebreak name = false ->
  forall cur rest,
    splitlines_from cur (name +:+ LF +:+ rest)
    = (cur +:+ name) :: splitlines_from "" rest.
Proof.
  intros Hn. induction name as [|c name IH]; intros cur rest.
  - rewrite append_empty_r. destruct rest; reflexivity.
  - simpl in Hn. apply orb_false_iff in Hn as [Hc Hn].
    change (String c name +:+ LF +:+ rest)
      with (String c (name +:+ LF +:+ rest)).
    simpl splitlines_from. rewrite Hc, (IH Hn), append_snoc. reflexivity.
Qed.

(** So is a line ended by carriage return and line feed. *)
Lemma splitlines_from_crlf name :
  has_linebreak name = false ->
  forall cur rest,
    splitlines_from cur (name +:+ (CR +:+ LF) +:+ rest)
    = (cur +:+ name) :: splitlines_from "" rest.
Proof.
  intros Hn. induction name as [|c name IH]; intros cur rest.
  - rewrite append_empty_r. reflexivity.
  - simpl in Hn. apply orb_false_iff in Hn as [Hc Hn].
    change (String c name +:+ (CR +:+ LF) +:+ rest)
      with (String c (name +:+ (CR +:+ LF) +:+ rest)).
    simpl splitlines_from. rewrite Hc, (IH Hn), append_snoc. reflexivity.
Qed.

Lemma splitlines_unlines eol names :
  eol = LF \/ eol = CR +:+ LF ->
  Forall (fun name => has_linebreak name = false) names ->
  splitlines (unlines eol names) = names.
Proof.
  intros Heol Hall. unfold splitlines.
  induction Hall as [|name names Hn _ IH]; [reflexivity|].
  simpl unlines.
  destruct Heol as [-> | ->].
  - rewrite (splitlines_from_lf name Hn). rewrite IH by (left; reflexivity).
    reflexivity.
  - rewrite (splitlines_from_crlf name Hn). rewrite IH by (right; reflexivity).
    reflexivity.
Qed.

Lemma lstrip_fixed s : starts_with_space s = false -> lstrip s = s.
Proof. destruct s as [|c s]; simpl; [reflexivity | intros ->; reflexivity]. Qed.

Lemma rstrip_fixed s : ends_with_space s = false -> rstrip s = s.
Proof.
  induction s as [|c s IH]; [reflexivity|].
  destruct s as [|d s'].
  - simpl. intros ->. reflexivity.
  - intros H. change (ends_with_space (String d s') = false) in H.
    change (rstrip (String c (String d s')))
      with (let r' := rstrip (String d s') in
            if isspace c && is_empty r' then "" else String c r').
    rewrite (IH H). simpl. rewrite andb_false_r. reflexivity.
Qed.

Lemma strip_fixed s :
  starts_with_space s = false -> ends_with_space s = false -> strip s = s.
Proof.
  intros Hs He. unfold strip. rewrite (lstrip_fixed s Hs). apply rstrip_fixed, He.
Qed.

Lemma strip_idempotent s : strip (strip s) = strip s.
Proof. apply strip_fixed; apply PyFacts.strip_spec. Qed.

Lemma has_linebreak_lstrip s :
  has_linebreak s = false -> has_linebreak (lstrip s) = false.
Proof.
  induction s as [|c s IH]; simpl; [reflexivity|].
  intros H. apply orb_false_iff in H as [Hc Hs].
  destruct (isspace c); [apply IH, Hs | simpl; rewrite Hc, Hs; reflexivity].
Qed.

Lemma has_linebreak_rstrip s :
  has_linebreak s = false -> has_linebreak (rstrip s) = false.
Proof.
  induction s as [|c s IH]; simpl; [reflexivity|].
  intros H. apply orb_false_iff in H as [Hc Hs].
  destruct (isspace c && is_empty (rstrip s)); [reflexivity|].
  simpl. rewrite Hc, (IH Hs). reflexivity.
Qed.

Lemma plain_name_strip line :
  has_linebreak line = false -> plain_name (strip line) = true.
Proof.
  intros H. unfold plain_name.
  destruct (PyFacts.strip_spec line) as [_ [Hs He]]. rewrite Hs, He.
  unfold strip. rewrite has_linebreak_rstrip by (apply has_linebreak_lstrip, H).
  reflexivity.
Qed.

Lemma plain_name_spec name :
  plain_name name = true ->
  has_linebreak name = false /\ strip name = name.
Proof.
  unfold plain_name. intros H.
  apply andb_true_iff in H as [H He]. apply andb_true_iff in H as [Hl Hs].
  apply negb_true_iff in Hl, Hs, He.
  split; [exact Hl | apply strip_fixed; assumption].
Qed.

(** Names printed one per line are read back as they are. *)
Lemma parse_unlines eol names :
  eol = LF \/ eol = CR +:+ LF ->
  forallb plain_name names = true ->
  map strip (splitlines (unlines eol names)) = names.
Proof.
  intros Heol Hall. rewrite forallb_forall in Hall.
  rewrite (splitlines_unlines eol names Heol).
  - induction names as [|name names IH]; [reflexivity|].
    simpl. rewrite (proj2 (plain_name_spec name (Hall name (or_introl eq_refl)))).
    rewrite IH; [reflexivity|]. intros x Hx. apply Hall. right. exact Hx.
  - apply Forall_forall. intros name Hin. apply list_elem_of_In in Hin.
    apply plain_name_spec, Hall, Hin.
Qed.

(** What a discovery finds is made of plain names. *)
Lemma parse_plain out :
  forallb plain_name (map strip (splitlines out)) = true.
Proof.
  apply forallb_forall. intros name Hin.
  apply in_map_iff in Hin as [line [<- Hin]].
  apply plain_name_strip.
  pose proof (PyFacts.splitlines_no_linebreak out) as Hall.
  rewrite Forall_forall in Hall. apply Hall, list_elem_of_In, Hin.
Qed.

End LineFacts.

(** X1: when the orchestrator prints plain names (no line boundary inside,
    no white space around), one per line, each line ended by a line feed or
    by carriage return and line feed, the body of [compute] returns exactly
    these names in their order, after starting the one process
    docker-compose ARGS config --services in the given directory. *)
Theorem compute_reads_printed_names_back
    (env : Env) (d : string) (args : list string) (w : World)
    (eol : string) (names : list string) :
  eol = LF \/ eol = CR +:+ LF ->
  forallb plain_name names = true ->
  env_capture env (clock w) d (discovery_argv args) = inr (unlines eol names) ->
  compute_body env d args w
  = (inr names, record_invocation (discovery d args) w).
Proof.
  intros Heol Hplain Hout.
  rewrite compute_body_run, Hout, (LineFacts.parse_unlines eol names Heol Hplain).
  reflexivity.
Qed.

Lemma compute_reads_printed_names_back_witness :
  compute_body
    (host (fun _ => unlines (CR +:+ LF) ["web"; "my db"; ""; "worker"]) "alice")
    "/srv/app" ["-p"; "sim"] (initial_world "/home/alice")
  = (inr ["web"; "my db"; ""; "worker"],
     record_invocation (discovery "/srv/app" ["-p"; "sim"])
       (initial_world "/home/alice")).
Proof.
  apply (compute_reads_printed_names_back
           (host (fun _ => unlines (CR +:+ LF) ["web"; "my db"; ""; "worker"])
              "alice")
           "/srv/app" ["-p"; "sim"] (initial_world "/home/alice")
           (CR +:+ LF) ["web"; "my db"; ""; "worker"]);
    [right; reflexivity | reflexivity | reflexivity].
Defined.

(** X2: whatever the orchestrator prints, every name the body of [compute]
    returns is plain: it holds no line boundary and neither starts nor ends
    with white space, and trimming it again changes nothing.  So a second
    discovery that is given the names of a first one, one per line, returns
    the same names. *)
Theorem compute_result_is_plain_and_stable
    (env env' : Env) (d : string) (args : list string) (w w' : World)
    (found : list string) :
  fst (compute_body env d args w) = inr found ->
  forallb plain_name found = true
  /\ map Py.strip found = found
  /\ (forall eol,
        eol = LF \/ eol = CR +:+ LF ->
        env_capture env' (clock w') d (discovery_argv args)
        = inr (unlines eol found) ->
        fst (compute_body env' d args w') = inr found).
Proof.
  rewrite compute_body_run. simpl.
  destruct (env_capture env (clock w) d (discovery_argv args)) as [e|out];
    [discriminate|].
  intros [= <-].
  split; [apply LineFacts.parse_plain|]. split.
  - rewrite map_map. apply map_ext. intros line.
    apply LineFacts.strip_idempotent.
  - intros eol Heol Hout'. rewrite compute_body_run, Hout'. simpl.
    rewrite (LineFacts.parse_unlines eol _ Heol (LineFacts.parse_plain out)).
    reflexivity.
Qed.

Lemma compute_result_is_plain_and_stable_witness :
  forallb plain_name ["web"; "worker"; ""; "db"] = true.
Proof.
  apply (compute_result_is_plain_and_stable
           (host (fun _ => sample_output) "alice")
           (host (fun _ => sample_output) "alice")
           "/srv/app" ["-p"; "sim"]
           (initial_world "/home/alice") (initial_world "/home/alice")
           ["web"; "worker"; ""; "db"]).
  reflexivity.
Defined.

(** ** Completion as the prefix grows *)

Lemma str_startswith_trans s p q :
  Py.str_startswith s p = true -> Py.str_startswith p q = true ->
  Py.str_startswith s q = true.
Proof.
  rewrite !PyFacts.str_startswith_spec.
  intros [r1 ->] [r2 ->]. exists (r2 +:+ r1).
  induction q as [|c q IH]; [reflexivity|].
  rewrite !PyFacts.append_cons, IH. reflexivity.
Qed.

Lemma str_startswith_refl s : Py.str_startswith s s = true.
Proof.
  apply PyFacts.str_startswith_spec. exists "".
  symmetry. apply LineFacts.append_empty_r.
Qed.

Lemma filter_sublist_mono {A} (f g : A -> bool) (l : list A) :
  (forall x, f x = true -> g x = true) ->
  sublist (List.filter f l) (List.filter g l).
Proof.
  intros Hfg. induction l as [|x l IH]; simpl; [constructor|].
  destruct (f x) eqn:Hf.
  - rewrite (Hfg x Hf). apply sublist_skip, IH.
  - destruct (g x); [apply sublist_cons, IH | exact IH].
Qed.

(** X3: for two completions of the same listing, when the longer prefix
    starts with the shorter one, the candidates of the longer prefix are a
    sub-sequence of those of the shorter: typing on never brings a
    candidate in.  Every candidate is itself a service of the listing, and
    a service typed in full is among its own candidates. *)
Theorem completion_narrows_as_prefix_grows
    (env : Env) (directory : Setting string)
    (extra_options : Setting (list string)) (w w' : World)
    (found : list string) (shorter longer : string) :
  choices env directory extra_options w = (inr found, w') ->
  Py.str_startswith longer shorter = true ->
  exists few many,
    complete env directory extra_options longer w = (inr few, w')
    /\ complete env directory extra_options shorter w = (inr many, w')
    /\ sublist few many
    /\ sublist many found
    /\ (forall s, In s found -> s = longer -> In s few).
Proof.
  intros Hls Hpre.
  exists (List.filter (fun s => startswith s longer) found),
         (List.filter (fun s => startswith s shorter) found).
  split; [rewrite complete_run, Hls; reflexivity|].
  split; [rewrite complete_run, Hls; reflexivity|].
  split; [|split].
  - apply filter_sublist_mono. intros s Hs. unfold startswith in *.
    exact (str_startswith_trans s longer shorter Hs Hpre).
  - clear Hls. induction found as [|s found IH]; simpl; [constructor|].
    destruct (startswith s shorter);
      [apply sublist_skip | apply sublist_cons]; exact IH.
  - intros s Hin ->. apply filter_In. split; [exact Hin|].
    apply str_startswith_refl.
Qed.

Lemma completion_narrows_as_prefix_grows_witness :
  exists few many,
    complete web_host app_dir app_flags "webh" (initial_world "/home/alice")
    = (inr few, snd (choices web_host app_dir app_flags
                       (initial_world "/home/alice")))
    /\ complete web_host app_dir app_flags "we" (initial_world "/home/alice")
       = (inr many, snd (choices web_host app_dir app_flags
                           (initial_world "/home/alice")))
    /\ sublist few many.
Proof.
  destruct (completion_narrows_as_prefix_grows web_host app_dir app_flags
              (initial_world "/home/alice")
              (snd (choices web_host app_dir app_flags
                      (initial_world "/home/alice")))
              ["web"; "worker"; "webhook"] "we" "webh" eq_refl eq_refl)
    as [few [many [H1 [H2 [H3 _]]]]].
  exists few, many. auto.
Defined.

(** ** More on the docker-group check *)

(** X4: when the group database can be read and the user name is known,
    the docker-group check returns normally exactly when some group whose
    name is exactly docker lists the user as a member, and raises the
    not-in-group error otherwise. *)
Theorem group_check_passes_iff_member
    (env : Env) (all_groups : list group) (user : string) :
  env_import_grp env = inr tt ->
  env_getgrall env = inr all_groups ->
  env_getuser env = inr user ->
  (user_in_docker_group env = inr tt <->
   exists g, In g all_groups /\ gr_name g = "docker" /\ In user (gr_mem g))
  /\ (user_in_docker_group env = inl not_in_docker_group <->
      forall g, In g all_groups -> gr_name g = "docker" ->
                ~ In user (gr_mem g)).
Proof.
  intros Hi Hg Hu. unfold user_in_docker_group.
  rewrite (user_in_docker_group_try_ok env user all_groups Hi Hg Hu).
  pose proof (member_of_spec all_groups user "docker") as Hspec.
  destruct (member_of all_groups user "docker") eqn:Hm.
  - assert (Hex : exists g, In g all_groups /\ gr_name g = "docker"
                            /\ In user (gr_mem g)) by (apply Hspec; reflexivity).
    split; [tauto|]. split; [discriminate|].
    intros Hno. destruct Hex as [g [Hin [Hn Hmem]]].
    exfalso. exact (Hno g Hin Hn Hmem).
  - assert (Hno : ~ exists g, In g all_groups /\ gr_name g = "docker"
                              /\ In user (gr_mem g))
      by (intros H; apply Hspec in H; discriminate).
    split.
    + split; [discriminate | intros H; exfalso; exact (Hno H)].
    + split; [|reflexivity].
      intros _ g Hin Hn Hmem. apply Hno. exists g. auto.
Qed.

Lemma group_check_passes_iff_member_witness :
  user_in_docker_group (host (fun _ => "") "carol") = inr tt.
Proof.
  apply (group_check_passes_iff_member (host (fun _ => "") "carol")
           unix_groups "carol" eq_refl eq_refl eq_refl).
  exists (mkGroup "docker" ["alice"; "carol"]).
  simpl. auto.
Defined.

(** X5: the check asks for the user name once per group.  With an empty
    group database the name is never asked for, so the check raises the
    not-in-group error even where asking would fail.  With at least one
    group, a failure to get the name is the outcome of the check: it is
    raised, unless it is an ImportError, which the check swallows.  A
    failure to read the database is treated the same way. *)
Theorem group_check_on_failing_lookups (env : Env) :
  env_import_grp env = inr tt ->
  (env_getgrall env = inr [] ->
   user_in_docker_group env = inl not_in_docker_group)
  /\ (forall g rest e,
        env_getgrall env = inr (g :: rest) -> env_getuser env = inl e ->
        user_in_docker_group env
        = if caught_by ImportError e then inr tt else inl e)
  /\ (forall e,
        env_getgrall env = inl e ->
        user_in_docker_group env
        = if caught_by ImportError e then inr tt else inl e).
Proof.
  intros Hi. unfold user_in_docker_group, user_in_docker_group_try.
  rewrite Hi. split; [|split].
  - intros ->. reflexivity.
  - intros g rest e -> He. simpl. rewrite He. reflexivity.
  - intros e ->. reflexivity.
Qed.

Lemma group_check_on_failing_lookups_witness :
  user_in_docker_group bare_host = inl not_in_docker_group.
Proof.
  apply (group_check_on_failing_lookups bare_host eq_refl). reflexivity.
Defined.

(** ** [up] in general *)

Lemma scale_args_lookup scales i scale :
  scales !! i = Some scale ->
  scale_args scales !! (2 * i)%nat = Some "--scale"
  /\ scale_args scales !! (2 * i + 1)%nat = Some scale.
Proof.
  rewrite scale_args_flat_map. revert i.
  induction scales as [|s scales IH]; intros i Hi; [discriminate|].
  destruct i as [|i].
  - injection Hi as ->. split; reflexivity.
  - simpl in Hi. destruct (IH i Hi) as [H1 H2].
    replace (2 * S i)%nat with (S (S (2 * i))) by lia.
    replace (S (S (2 * i)) + 1)%nat with (S (S (2 * i + 1))) by lia.
    split; assumption.
Qed.

(** X6: [up] either raises the error of the docker-group check, whatever
    it is, and then starts nothing and leaves the world as it was; or it
    starts exactly one process.  Its arguments are up -d --build, then for
    every scale, in input order, the pair --scale SCALE (so twice as many
    words as scales, the i-th scale at position 2i+1 behind its --scale),
    then --force-recreate when asked for, then the services. *)
Theorem up_in_general
    (env : Env) (directory : Setting string)
    (extra_options : Setting (list string)) (service : list string)
    (force_recreate : bool) (scales : list string) (w : World) :
  (forall e, user_in_docker_group env = inl e ->
             up env directory extra_options service force_recreate scales w
             = (inl e, w))
  /\ (user_in_docker_group env = inr tt ->
      started w (snd (up env directory extra_options service force_recreate
                        scales w))
      = [forwarded env directory extra_options w
           (up_argv service force_recreate scales)])
  /\ up_argv service force_recreate scales
     = ["up"; "-d"; "--build"]
         ++ flat_map (fun scale => ["--scale"; scale]) scales
         ++ (if force_recreate then ["--force-recreate"] else [])
         ++ service
  /\ length (scale_args scales) = (2 * length scales)%nat
  /\ (forall i scale, scales !! i = Some scale ->
        scale_args scales !! (2 * i)%nat = Some "--scale"
        /\ scale_args scales !! (2 * i + 1)%nat = Some scale).
Proof.
  split; [|split; [|split; [|split]]].
  - intros e He. rewrite up_run, He. reflexivity.
  - intros Hok. rewrite up_run, Hok. unfold started. simpl.
    rewrite drop_app_length. reflexivity.
  - unfold up_argv. rewrite scale_args_flat_map. reflexivity.
  - rewrite scale_args_flat_map.
    induction scales as [|s scales IH]; simpl; [reflexivity | rewrite IH; lia].
  - apply scale_args_lookup.
Qed.

Lemma up_in_general_witness :
  up denied_host app_dir app_flags ["web"] true ["web=2"; "db=3"]
     (initial_world "/home/alice")
  = (inl (Exn PermissionError "Permission denied: '/etc/group'"),
     initial_world "/home/alice")
  /\ started (initial_world "/home/alice")
       (snd (up (host (fun _ => "") "alice") app_dir app_flags ["web"] true
               ["web=2"; "db=3"] (initial_world "/home/alice")))
     = [mkInvocation Streamed "/srv/app"
          ["docker-compose"; "-p"; "sim"; "up"; "-d"; "--build"; "--scale";
           "web=2"; "--scale"; "db=3"; "--force-recreate"; "web"]].
Proof.
  split.
  - apply (proj1 (up_in_general denied_host app_dir app_flags ["web"] true
                    ["web=2"; "db=3"] (initial_world "/home/alice"))).
    reflexivity.
  - apply (proj1 (proj2 (up_in_general (host (fun _ => "") "alice") app_dir
                           app_flags ["web"] true ["web=2"; "db=3"]
                           (initial_world "/home/alice")))).
    reflexivity.
Defined.

(** ** The other sub-commands *)



(** With a relative directory the two resolutions differ: [start] runs in
    proj/proj where [stop] runs in proj. *)
Example start_with_relative_directory :
  journal (snd (start joining_host (Static "proj") app_flags ["web"]
                  (initial_world "/home/alice")))
  = [mkInvocation Streamed "/home/alice/proj/proj"
       ["docker-compose"; "-p"; "sim"; "start"; "web"]]
  /\ journal (snd (stop joining_host (Static "proj") app_flags ["web"]
                     (initial_world "/home/alice")))
     = [mkInvocation Streamed "/home/alice/proj"
          ["docker-compose"; "-p"; "sim"; "stop"; "web"]].
Proof. vm_compute. split; reflexivity. Qed.

(** X8: [build] treats a missing service and an empty service name alike:
    it forwards build followed by the extra arguments.  A non-empty
    service is put in front of the extra arguments, so that building
    service S with arguments ARGS is the same as building no service with
    arguments S, ARGS. *)
Theorem build_with_optional_service
    (env : Env) (directory : Setting string)
    (extra_options : Setting (list string)) (service : string)
    (args : list string) (w : World) :
  build env directory extra_options None args w
  = docker_compose env directory extra_options ("build" :: args) w
  /\ build env directory extra_options (Some "") args w
     = build env directory extra_options None args w
  /\ (service <> "" ->
      build env directory extra_options (Some service) args w
      = docker_compose env directory extra_options
          ("build" :: service :: args) w
      /\ build env directory extra_options (Some service) args w
         = build env directory extra_options None (service :: args) w).
Proof.
  split; [reflexivity | split; [reflexivity|]].
  intros Hne. unfold build.
  destruct service as [|c s]; [congruence|]. split; reflexivity.
Qed.

Lemma build_with_optional_service_witness :
  build (host (fun _ => "") "alice") app_dir app_flags (Some "web")
    ["--no-cache"] (initial_world "/home/alice")
  = build (host (fun _ => "") "alice") app_dir app_flags None
      ["web"; "--no-cache"] (initial_world "/home/alice").
Proof.
  apply (build_with_optional_service (host (fun _ => "") "alice") app_dir
           app_flags "web" ["--no-cache"] (initial_world "/home/alice")).
  discriminate.
Defined.

(** X9: [down], [stop], [restart], [ps], [status], [logs], [_config],
    [_exec], [run] and [images] each start exactly one process:
    docker-compose, the extra options, then the words shown below, in the
    project directory.  None of them looks at the docker group, reads or
    writes the cache, or moves the working directory; the outcome is the
    outcome of that process. *)
Theorem subcommands_forward_once
    (env : Env) (directory : Setting string)
    (extra_options : Setting (list string)) (w : World)
    (service command args : list string) (name : string)
    (remove_orphans services : bool) (c : M unit) (words : list string) :
  In (c, words)
     [ (down env directory extra_options remove_orphans,
        "down" :: (if remove_orphans then ["--remove-orphans"] else []));
       (stop env directory extra_options service, "stop" :: service);
       (restart env directory extra_options service, "restart" :: service);
       (ps env directory extra_options service, "ps" :: service);
       (status env directory extra_options service, "ps" :: service);
       (logs env directory extra_options service, "logs" :: "-f" :: service);
       (_config env directory extra_options services,
        "config" :: (if services then ["--services"] else []));
       (_exec env directory extra_options name command,
        "exec" :: name :: command);
       (run env directory extra_options name command,
        "run" :: name :: command);
       (images env directory extra_options args, "images" :: args) ] ->
  c w = docker_compose env directory extra_options words w
  /\ started w (snd (c w))
     = [mkInvocation Streamed (env_abspath env (cwd w) (resolve directory))
          ("docker-compose" :: resolve extra_options ++ words)]
  /\ fst (c w)
     = env_stream env (clock w) (env_abspath env (cwd w) (resolve directory))
         ("docker-compose" :: resolve extra_options ++ words)
  /\ disk (snd (c w)) = disk w
  /\ cwd (snd (c w)) = cwd w.
Proof.
  intros Hin.
  assert (Hc : c w = docker_compose env directory extra_options words w).
  { simpl in Hin.
    repeat (destruct Hin as [Hin | Hin];
            [injection Hin as <- <-;
             unfold ps, status; rewrite ?PyFacts.or_empty;
             try destruct remove_orphans; try destruct services; reflexivity|]).
    destruct Hin. }
  rewrite Hc, docker_compose_run. unfold started, forwarded. simpl.
  rewrite drop_app_length. repeat split.
Qed.

Lemma subcommands_forward_once_witness :
  logs (host (fun _ => "") "alice") app_dir app_flags ["web"]
    (initial_world "/home/alice")
  = docker_compose (host (fun _ => "") "alice") app_dir app_flags
      ["logs"; "-f"; "web"] (initial_world "/home/alice").
Proof.
  apply (subcommands_forward_once (host (fun _ => "") "alice") app_dir
           app_flags (initial_world "/home/alice") ["web"] [] [] "" true false
           (logs (host (fun _ => "") "alice") app_dir app_flags ["web"])
           ["logs"; "-f"; "web"]).
  simpl. do 5 right. left. reflexivity.
Defined.

(** X10: [fix_up] starts no docker-compose process and leaves the cache
    and the working directory alone.  When the user name cannot be found
    it raises that error and starts nothing.  Otherwise it starts
    sudo adduser USER docker in the current directory; when that fails the
    error is raised and sudo login is not started; when it returns, sudo
    login is started next and its outcome is the outcome of [fix_up]. *)
Theorem fix_up_adds_the_user_then_logs_in (env : Env) (w : World) :
  disk (snd (fix_up env w)) = disk w
  /\ cwd (snd (fix_up env w)) = cwd w
  /\ (forall e, env_getuser env = inl e -> fix_up env w = (inl e, w))
  /\ (forall user,
        env_getuser env = inr user ->
        let adduser :=
          mkInvocation Streamed (cwd w) ["sudo"; "adduser"; user; "docker"] in
        let login := mkInvocation Streamed (cwd w) ["sudo"; "login"] in
        (forall e,
           env_stream env (clock w) (cwd w) (inv_argv adduser) = inl e ->
           fix_up env w = (inl e, record_invocation adduser w))
        /\ (env_stream env (clock w) (cwd w) (inv_argv adduser) = inr tt ->
            started w (snd (fix_up env w)) = [adduser; login]
            /\ fst (fix_up env w)
               = env_stream env (clock w) (cwd w) (inv_argv login))).
Proof.
  unfold fix_up, bind, lift, call.
  destruct (env_getuser env) as [e|user] eqn:Hu.
  - split; [reflexivity|]. split; [reflexivity|].
    split; [intros e' [= <-]; reflexivity | intros user' [=]].
  - cbn beta iota zeta.
    destruct (env_stream env (clock w) (cwd w)
                ["sudo"; "adduser"; user; "docker"]) as [e|[]] eqn:Ha.
    + split; [reflexivity|]. split; [reflexivity|].
      split; [intros e' [=]|].
      intros user' [= <-]. simpl. rewrite Ha.
      split; [intros e' [= <-]; reflexivity | discriminate].
    + split; [reflexivity|]. split; [reflexivity|].
      split; [intros e' [=]|].
      intros user' [= <-]. simpl. rewrite Ha.
      split; [discriminate|]. intros _. unfold started. simpl.
      rewrite <- app_assoc, drop_app_length. split; reflexivity.
Qed.

Lemma fix_up_adds_the_user_then_logs_in_witness :
  started (initial_world "/home/bob")
    (snd (fix_up (host (fun _ => "") "bob") (initial_world "/home/bob")))
  = [mkInvocation Streamed "/home/bob" ["sudo"; "adduser"; "bob"; "docker"];
     mkInvocation Streamed "/home/bob" ["sudo"; "login"]].
Proof.
  apply (proj2 (proj2 (proj2 (fix_up_adds_the_user_then_logs_in
                                (host (fun _ => "") "bob")
                                (initial_world "/home/bob")))) "bob");
    reflexivity.
Defined.

(** ** [docker_command] and the default options *)

Section DockerCommand.
Context {V : Type}.
Implicit Types kwargs opts : gmap string V.

Lemma docker_command_opts_lookup kwargs k :
  docker_command_opts kwargs !! k
  = if decide (k ∈ generic_option_names) then kwargs !! k else None.
Proof.
  unfold docker_command_opts. apply option_eq. intros x.
  rewrite map_lookup_filter_Some. simpl.
  destruct (decide (k ∈ generic_option_names)) as [Hin|Hout].
  - split; [intros [Hk _]; exact Hk | intros Hk; split; [exact Hk | exact Hin]].
  - split; [intros [_ Hin]; contradiction | discriminate].
Qed.

(** Deleting the keys of [opts] one by one leaves what is not in [opts]. *)
Lemma delete_keys_lookup kwargs opts k :
  map_fold (fun k _ remaining => delete k remaining) kwargs opts !! k
  = match opts !! k with Some _ => None | None => kwargs !! k end.
Proof.
  revert k.
  apply (map_fold_weak_ind
           (fun remaining (o : gmap string V) =>
              forall k, remaining !! k
                        = match o !! k with
                          | Some _ => None
                          | None => kwargs !! k
                          end)).
  - intros k. rewrite lookup_empty. reflexivity.
  - intros i x o remaining _ IH k.
    destruct (decide (i = k)) as [->|Hne].
    + rewrite lookup_delete_eq, lookup_insert_eq. reflexivity.
    + rewrite lookup_delete_ne, lookup_insert_ne by exact Hne. apply IH.
Qed.

Lemma docker_command_kwargs_lookup kwargs k :
  docker_command_kwargs kwargs !! k
  = if decide (k ∈ generic_option_names) then None else kwargs !! k.
Proof.
  unfold docker_command_kwargs.
  rewrite delete_keys_lookup, docker_command_opts_lookup.
  destruct (decide (k ∈ generic_option_names)); [|reflexivity].
  destruct (kwargs !! k); reflexivity.
Qed.

End DockerCommand.

(** X11: [docker_command] splits its keywords in two: directory and
    extra_options go to [docker_generic_commands], every other keyword goes
    to the group unchanged, and nothing is lost or passed twice.  Binding
    the arguments fails exactly when no directory was given; otherwise the
    directory is the one given and extra_options is the one given, or the
    default when none was. *)
Theorem docker_command_splits_keywords
    (V : Type) (kwargs : gmap string V) :
  let for_group := fst (docker_command kwargs) in
  let bound := snd (docker_command kwargs) in
  for_group !! "directory" = None
  /\ for_group !! "extra_options" = None
  /\ (forall k, k <> "directory" -> k <> "extra_options" ->
                for_group !! k = kwargs !! k)
  /\ docker_command_opts kwargs ∪ for_group = kwargs
  /\ docker_command_opts kwargs ##ₘ for_group
  /\ (bound = None <-> kwargs !! "directory" = None)
  /\ (forall d, kwargs !! "directory" = Some d ->
                bound = Some (mkGenericArgs d (kwargs !! "extra_options"))).
Proof.
  intros for_group bound. unfold for_group, bound, docker_command. simpl.
  assert (Hnames : forall k : string,
             k ∈ generic_option_names <-> k = "directory" \/ k = "extra_options").
  { intros k. unfold generic_option_names.
    rewrite !elem_of_cons, elem_of_nil. tauto. }
  split; [|split; [|split; [|split; [|split; [|split]]]]].
  - rewrite docker_command_kwargs_lookup.
    destruct (decide ("directory" ∈ generic_option_names)) as [|Hn];
      [reflexivity|]. exfalso. apply Hn, Hnames. auto.
  - rewrite docker_command_kwargs_lookup.
    destruct (decide ("extra_options" ∈ generic_option_names)) as [|Hn];
      [reflexivity|]. exfalso. apply Hn, Hnames. auto.
  - intros k H1 H2. rewrite docker_command_kwargs_lookup.
    destruct (decide (k ∈ generic_option_names)) as [Hin|]; [|reflexivity].
    apply Hnames in Hin. tauto.
  - apply map_eq. intros k.
    rewrite lookup_union, docker_command_kwargs_lookup,
      docker_command_opts_lookup.
    destruct (decide (k ∈ generic_option_names)); destruct (kwargs !! k);
      reflexivity.
  - apply map_disjoint_alt. intros k.
    rewrite docker_command_kwargs_lookup, docker_command_opts_lookup.
    destruct (decide (k ∈ generic_option_names)); auto.
  - unfold docker_generic_commands_args.
    rewrite !docker_command_opts_lookup.
    destruct (decide ("directory" ∈ generic_option_names)) as [|Hn];
      [|exfalso; apply Hn, Hnames; auto].
    destruct (kwargs !! "directory"); split; congruence.
  - intros d Hd. unfold docker_generic_commands_args.
    rewrite !docker_command_opts_lookup.
    destruct (decide ("directory" ∈ generic_option_names)) as [|Hn];
      [|exfalso; apply Hn, Hnames; auto].
    destruct (decide ("extra_options" ∈ generic_option_names)) as [|Hn];
      [|exfalso; apply Hn, Hnames; auto].
    rewrite Hd. reflexivity.
Qed.

Lemma docker_command_splits_keywords_witness :
  snd (docker_command (V := string)
         (<["directory" := "/srv/app"]> (<["help" := "Manage the stack"]> ∅)))
  = Some (mkGenericArgs "/srv/app" None).
Proof.
  destruct (docker_command_splits_keywords string
              (<["directory" := "/srv/app"]>
                 (<["help" := "Manage the stack"]> ∅)))
    as [_ [_ [_ [_ [_ [_ Hbound]]]]]].
  apply (Hbound "/srv/app"). reflexivity.
Defined.

Example docker_command_without_directory :
  docker_command (V := string)
    (<["help" := "Manage the stack"]> (<["extra_options" := "-p sim"]> ∅))
  = (<["help" := "Manage the stack"]> ∅, None).
Proof. vm_compute. reflexivity. Qed.

Module CaseFacts.
Import PyCase.





End CaseFacts.


